(** * election-insights: the entities database (server/entitiesDB.js)

    A shallow embedding of [EntitiesDB], the module that adapts Alchemy
    enrichment documents into [Article] and [Entity] records, upserts them,
    answers the time-windowed aggregate and lookup queries, and prunes old
    records.

    Conventions of the embedding.
    - A mongoose collection is a finite map from [_id] to record
      ([gmap string _]); [findByIdAndUpdate] with [upsert] is map insertion,
      [remove] is map filtering, and a query reads the records in the order
      of [map_to_list] (MongoDB leaves that order unspecified).
    - A [Date] is its number of milliseconds since the epoch, in [Z].
    - JavaScript strings are [string]; case conversion is the ASCII one.
    - The [sentiment] numbers are binary64 floating-point numbers, with
      the additions and divisions of IEEE 754.
    - A [limit] is a count, in [nat].
    - The embedding runs the asynchronous store operations in the order
      they are issued, sorts rows of equal value in one fixed order and
      adds the sentiments of a group in the order of the scan.  MongoDB
      fixes none of the three, and the properties numbered below (C1 to
      C10, X1 onwards) are worded so as not to depend on them: on which
      of two different writes to one [_id] lands last, on the order of
      rows of equal value, or on the order in which sentiments are
      added. *)

From Stdlib Require Import ZArith String Ascii List Lia.
From Stdlib Require Import Floats.PrimFloat Uint63.
From stdpp Require Import gmap strings list fin_maps sorting.

Local Open Scope Z_scope.

(* Decimal literals such as 0.1 stand for the nearest binary64 value. *)
Set Warnings "-inexact-float".

(** ** JavaScript values and control *)

Module JS.

Inductive error := TypeError | SyntaxError | StoreError.

(** The outcome of a synchronous call. *)
Inductive completion (A : Type) :=
| Return (a : A)
| Throw (e : error).
Arguments Return {A} a.
Arguments Throw {A} e.

(** The outcome of a promise built around a store callback: the callback
    resolves or rejects it, or throws before doing either, in which case
    the promise is never settled and the exception is uncaught. *)
Inductive promise (A : Type) :=
| Resolved (a : A)
| Rejected (e : error)
| Crashed (e : error).
Arguments Resolved {A} a.
Arguments Rejected {A} e.
Arguments Crashed {A} e.

(** [p.then(f)] *)
Definition and_then {A B} (p : promise A) (f : A → promise B) : promise B :=
  match p with
  | Resolved a => f a
  | Rejected e => Rejected e
  | Crashed e => Crashed e
  end.

(** [x || d] for an optional number: absent, [null], [undefined] and [0]
    are falsy. *)
Definition or_default (x : option Z) (d : Z) : Z :=
  match x with
  | Some 0 => d
  | Some v => v
  | None => d
  end.

Definition or_default_nat (x : option nat) (d : nat) : nat :=
  match x with
  | Some O => d
  | Some v => v
  | None => d
  end.

(** Truthiness of a string: only the empty string is falsy. *)
Definition truthy_string (s : string) : bool :=
  match s with
  | EmptyString => false
  | String _ _ => true
  end.

(** [new Date(ms)] and [date.getTime()] on the millisecond count. *)
Definition new_Date (ms : Z) : Z := ms.

End JS.

(** ** ASCII case conversion *)

Module Text.

Definition is_upper (c : ascii) : bool :=
  let n := nat_of_ascii c in (65 <=? n)%nat && (n <=? 90)%nat.

Definition is_lower (c : ascii) : bool :=
  let n := nat_of_ascii c in (97 <=? n)%nat && (n <=? 122)%nat.

Definition lower_ascii (c : ascii) : ascii :=
  if is_upper c then ascii_of_nat (nat_of_ascii c + 32) else c.

Definition upper_ascii (c : ascii) : ascii :=
  if is_lower c then ascii_of_nat (nat_of_ascii c - 32) else c.

Fixpoint toLower (s : string) : string :=
  match s with
  | EmptyString => EmptyString
  | String c s' => String (lower_ascii c) (toLower s')
  end.

Fixpoint toUpper (s : string) : string :=
  match s with
  | EmptyString => EmptyString
  | String c s' => String (upper_ascii c) (toUpper s')
  end.

(** Equality of two strings ignoring (ASCII) case. *)
Definition eq_ignore_case (s t : string) : Prop := toUpper s = toUpper t.

End Text.

(** ** Regular expressions

    The fragment of the JavaScript pattern language that
    [getArticleIdsForEntity] can build from an entity text made of ordinary
    characters, dots, bars and anchors: a disjunction of sequences of
    atoms.  A pattern that uses any other syntax character (quantifiers,
    groups, classes, escapes) is outside the fragment and [compile]
    answers [None] for it. *)

Module RegExp.

Inductive atom :=
| Bol                 (* ^ *)
| Eol                 (* $ *)
| Any                 (* . *)
| Lit (c : ascii).

Definition alternative := list atom.
Definition t := list alternative.

(** The syntax characters of a pattern: [\ ^ $ . | ? * + ( ) [ ] { }]. *)
Definition is_syntax_char (c : ascii) : bool :=
  existsb (Ascii.eqb c) (list_ascii_of_string "\^$.|?*+()[]{}").

Definition parse_atom (c : ascii) : option atom :=
  if Ascii.eqb c "^" then Some Bol
  else if Ascii.eqb c "$" then Some Eol
  else if Ascii.eqb c "." then Some Any
  else if is_syntax_char c then None
  else Some (Lit c).

(** [compile p]: the disjunction of the alternatives of [p], split at
    each bar. *)
Fixpoint compile (p : string) : option t :=
  match p with
  | EmptyString => Some [[]]
  | String c p' =>
      if Ascii.eqb c "|" then
        match compile p' with
        | Some alts => Some ([] :: alts)
        | None => None
        end
      else
        match parse_atom c, compile p' with
        | Some a, Some (alt :: alts) => Some ((a :: alt) :: alts)
        | _, _ => None
        end
  end.

Definition is_line_terminator (c : ascii) : bool :=
  Ascii.eqb c "010" || Ascii.eqb c "013".

(** With the [i] flag two characters match when their canonical (upper
    case) forms are equal. *)
Definition char_match (c d : ascii) : bool :=
  Ascii.eqb (Text.upper_ascii c) (Text.upper_ascii d).

(** [match_here alt at_start s]: [alt] matches a prefix of [s];
    [at_start] tells whether [s] is the whole subject. *)
Fixpoint match_here (alt : alternative) (at_start : bool) (s : string) : bool :=
  match alt with
  | [] => true
  | Bol :: alt' => at_start && match_here alt' at_start s
  | Eol :: alt' =>
      match s with
      | EmptyString => match_here alt' at_start s
      | String _ _ => false
      end
  | Any :: alt' =>
      match s with
      | EmptyString => false
      | String d s' => negb (is_line_terminator d) && match_here alt' false s'
      end
  | Lit c :: alt' =>
      match s with
      | EmptyString => false
      | String d s' => char_match c d && match_here alt' false s'
      end
  end.

(** A pattern is searched for at every position of the subject. *)
Fixpoint search (re : t) (at_start : bool) (s : string) : bool :=
  existsb (λ alt, match_here alt at_start s) re
  || match s with
     | EmptyString => false
     | String _ s' => search re false s'
     end.

(** [re.test(s)] *)
Definition test (re : t) (s : string) : bool := search re true s.

End RegExp.

(** ** The mongoose schemas *)

Module Article.
Record t := mk {
  _id : string;
  title : string;
  date : Z;
  url : string
}.
End Article.

Module Entity.
Record t := mk {
  _id : string;
  article_id : string;
  date : Z;
  text : string;
  count : Z;
  sentiment : float
}.
End Entity.

(** The two collections behind the [Article] and [Entity] models. *)
Record store := Store {
  articles : gmap string Article.t;
  entities : gmap string Entity.t
}.

(** ** The documents of the enrichment service

    [doc.source.enriched.url] is where the code looks for the title, the
    url and the entities.  The property can be absent, hold a string, or
    hold the object the code expects; the other properties of
    [doc.source.enriched] are never read. *)

Module Alchemy.

Record sentiment_t := { score : float }.

Record entity := {
  text : string;
  count : Z;
  sentiment : sentiment_t
}.

Record url_object := {
  title : string;
  url : string;
  entities : list entity
}.

Inductive url_value :=
| UrlAbsent
| UrlString (s : string)
| UrlObject (u : url_object).

Record enriched_t := {
  enriched_title : option string;
  enriched_url : url_value;
  enriched_entities : option (list entity)
}.

Record source_t := { enriched : option enriched_t }.

Record doc := {
  id : string;
  timestamp : Z;
  source : option source_t
}.

End Alchemy.

(** ** The store operations the module calls *)

Module Mongo.

(** The records of a collection, in the order a scan returns them. *)
Definition docs {A} (coll : gmap string A) : list A := (map_to_list coll).*2.

(** [Model.findByIdAndUpdate(id, record, {upsert: true})] *)
Definition findByIdAndUpdate {A} (id : string) (record : A)
    (coll : gmap string A) : gmap string A :=
  <[id := record]> coll.

(** [Model.remove(condition)] *)
Definition remove {A} (cond : A → Prop) `{∀ x, Decision (cond x)}
    (coll : gmap string A) : gmap string A :=
  filter (λ kv, ¬ cond kv.2) coll.

(** [{ $gte: lo, $lt: hi }] *)
Definition gte_lt (lo hi d : Z) : Prop := lo ≤ d ∧ d < hi.

#[global] Instance gte_lt_dec lo hi d : Decision (gte_lt lo hi d).
Proof. unfold gte_lt. apply _. Defined.

(** [{ $lt: hi }] *)
Definition lt (hi d : Z) : Prop := d < hi.

#[global] Instance lt_dec hi d : Decision (lt hi d).
Proof. unfold lt. apply _. Defined.

(** [{ $group: { _id: key, field: accumulator } }]: the documents are
    consumed in order and each one updates the accumulator of its key. *)
Definition group {A} (key : Entity.t → string) (step : option A → Entity.t → A)
    (ds : list Entity.t) : gmap string A :=
  foldl (λ acc d, <[key d := step (acc !! key d) d]> acc) ∅ ds.

(** A count as a double. *)
Definition to_double (n : nat) : float :=
  PrimFloat.of_uint63 (Uint63.of_Z (Z.of_nat n)).

(** The accumulator of [{ $sum: '$count' }] and [{ $avg: '$sentiment' }]:
    a running total of each and the number of documents seen. *)
Record sum_avg := SumAvg {
  sum_count : Z;
  sum_sentiment : float;
  population : nat
}.

Definition sum_avg_init : sum_avg := SumAvg 0 0%float 0.

Definition sum_avg_step (o : option sum_avg) (d : Entity.t) : sum_avg :=
  let a := default sum_avg_init o in
  SumAvg (sum_count a + Entity.count d)
         (sum_sentiment a + Entity.sentiment d)%float
         (S (population a)).

(** The accumulator of [{ $push: '$article_id' }]. *)
Definition push_step (o : option (list string)) (d : Entity.t) : list string :=
  default [] o ++ [Entity.article_id d].

(** [{ $limit: n }] *)
Definition limit {A} (n : nat) (l : list A) : list A := take n l.

End Mongo.

(** A row of the result of [aggregateEntities]. *)
Module Group.
Record t := mk {
  _id : string;
  value : Z;
  sentiment : float
}.

(** The total of the counts, and the total of the sentiments divided by
    the number of documents. *)
Definition of_acc (kv : string * Mongo.sum_avg) : t :=
  mk kv.1 (Mongo.sum_count kv.2)
     (Mongo.sum_sentiment kv.2 / Mongo.to_double (Mongo.population kv.2))%float.

(** [{ $sort: { value: -1 } }]: [g1] may come before [g2]. *)
Definition desc (g1 g2 : t) : Prop := value g2 ≤ value g1.

#[global] Instance desc_dec g1 g2 : Decision (desc g1 g2) :=
  Z_le_dec (value g2) (value g1).
End Group.

(** A row of the [$push] grouping of [getArticleIdsForEntity]. *)
Module IdGroup.
Record t := mk {
  _id : string;
  value : list string
}.

Definition of_acc (kv : string * list string) : t := mk kv.1 kv.2.
End IdGroup.

(** ** moment

    A moment in local mode is an instant together with the time zone of
    the process.  The zone is what the [Date] object underneath knows of
    it: the local clock reading of an instant ([LocalTime]) and the
    instant of a local clock reading ([UTC]), both in milliseconds.
    [startOf('day')] and [subtract(n, 'day')] set fields of the local
    clock reading ([setHours], [setDate]) and go back to the instant, so
    that a day is a calendar day, 23 or 25 hours long when the offset of
    the zone changes inside it. *)

Module Moment.

Record zone := Zone {
  local_of : Z → Z;     (* LocalTime(t) *)
  utc_of : Z → Z        (* UTC(t) *)
}.

(** A zone that keeps one offset, in minutes east of UTC. *)
Definition fixed (utcOffset : Z) : zone :=
  Zone (λ t, t + utcOffset * 60000) (λ l, l - utcOffset * 60000).

Record t := mk {
  valueOf : Z;          (* milliseconds since the epoch *)
  tz : zone
}.

Definition ms_per_day : Z := 86400000.

Definition local (m : t) : Z := local_of (tz m) (valueOf m).

(** [m.startOf('day')] *)
Definition startOf_day (m : t) : t :=
  mk (utc_of (tz m) (local m - local m mod ms_per_day)) (tz m).

(** [m.subtract(n, 'day')] *)
Definition subtract_day (n : Z) (m : t) : t :=
  mk (utc_of (tz m) (local m - n * ms_per_day)) (tz m).

(** [m.unix()] *)
Definition unix (m : t) : Z := valueOf m / 1000.

End Moment.

(** ** The user-provided services

    The ['user-provided'] entry of [VCAP_SERVICES], or of [config.json]:
    a list of named services with their credentials. *)

Module VCAP.

Record credentials_t := { uri : string }.

Record service := {
  name : string;
  credentials : credentials_t
}.

End VCAP.

(** ** EntitiesDB *)

Module EntitiesDB.
Import JS.

(** *** init *)

(** [s.indexOf(pat)]: the position of the first occurrence, or [-1]. *)
Definition indexOf (s pat : string) : Z :=
  match String.index 0 pat s with
  | Some n => Z.of_nat n
  | None => -1
  end.

(** One turn of the loop over [userProvided]. *)
Definition init_step (mongoURI : option string) (svc : VCAP.service) : option string :=
  if bool_decide (-1 < indexOf (VCAP.name svc) "mongolab")
  then Some (VCAP.uri (VCAP.credentials svc))
  else mongoURI.

(** The argument [init] hands to [mongoose.connect]; [None] is
    [undefined].  [userProvided] is [None] when neither the environment
    nor [config.json] provides the entry, and the read of its [length]
    then throws. *)
Definition init (userProvided : option (list VCAP.service)) : completion (option string) :=
  match userProvided with
  | None => Throw TypeError
  | Some services => Return (foldl init_step None services)
  end.

(** *** aggregateEntities *)

(** The [$match] stage of [aggregateEntities]. *)
Definition aggregate_match (start end_ : Z) (d : Entity.t) : Prop :=
  Mongo.gte_lt (new_Date start) (new_Date end_) (Entity.date d).

#[global] Instance aggregate_match_dec start end_ d :
  Decision (aggregate_match start end_ d).
Proof. unfold aggregate_match, Mongo.gte_lt. apply _. Defined.

(** The pipeline handed to [Entity.aggregate]: [$match], [$group],
    [$sort], [$limit]. *)
Definition aggregate_matched (start end_ : Z) (coll : gmap string Entity.t)
    : list Entity.t :=
  filter (aggregate_match start end_) (Mongo.docs coll).

Definition aggregate_grouped (matched : list Entity.t) : list Group.t :=
  Group.of_acc <$>
    map_to_list
      (Mongo.group (λ d, Text.toLower (Entity.text d)) Mongo.sum_avg_step matched).

Definition aggregate_pipeline (start end_ : Z) (limit : nat)
    (coll : gmap string Entity.t) : list Group.t :=
  let matched := aggregate_matched start end_ coll in
  let grouped := aggregate_grouped matched in
  let sorted := merge_sort Group.desc grouped in
  Mongo.limit limit sorted.

Definition aggregate_callback (err : option error) (res : list Group.t)
    : promise (list Group.t) :=
  match err with
  | Some e => Rejected e
  | None => Resolved res
  end.

Definition aggregateEntities (start end_ : option Z) (limit : option nat)
    (st : store) : promise (list Group.t) :=
  let start := or_default start 0 in
  let end_ := or_default end_ 9999999999999 in
  let limit := or_default_nat limit 100 in
  aggregate_callback None (aggregate_pipeline start end_ limit (entities st)).

(** *** getArticleIdsForEntity *)

(** [new RegExp('^' + entity + '$', 'i')] *)
Definition entity_pattern (entity : string) : string :=
  ("^" ++ entity ++ "$")%string.

(** The [$match] stage of [getArticleIdsForEntity]. *)
Definition ids_match (re : RegExp.t) (start end_ : Z) (d : Entity.t) : Prop :=
  RegExp.test re (Entity.text d) = true
  ∧ Mongo.gte_lt (new_Date start) (new_Date end_) (Entity.date d).

#[global] Instance ids_match_dec re start end_ d :
  Decision (ids_match re start end_ d).
Proof. unfold ids_match, Mongo.gte_lt. apply _. Defined.

(** The pipeline: [$match], then [$group] by the text as stored. *)
Definition ids_matched (re : RegExp.t) (start end_ : Z)
    (coll : gmap string Entity.t) : list Entity.t :=
  filter (ids_match re start end_) (Mongo.docs coll).

Definition ids_pipeline (re : RegExp.t) (start end_ : Z)
    (coll : gmap string Entity.t) : list IdGroup.t :=
  let matched := ids_matched re start end_ coll in
  let grouped := Mongo.group Entity.text Mongo.push_step matched in
  IdGroup.of_acc <$> map_to_list grouped.

(** The callback reads [res[0].value]; on an empty [res] that is a
    property access on [undefined]. *)
Definition ids_callback (err : option error) (res : list IdGroup.t)
    : promise (list string) :=
  match err with
  | Some e => Rejected e
  | None =>
      match res with
      | [] => Crashed TypeError
      | g :: _ => Resolved (IdGroup.value g)
      end
  end.

(** [None]: the pattern built from [entity] is outside the fragment of
    [RegExp]. *)
Definition getArticleIdsForEntity (entity : string) (start end_ : option Z)
    (st : store) : option (promise (list string)) :=
  let start := or_default start 0 in
  let end_ := or_default end_ 9999999999999 in
  match RegExp.compile (entity_pattern entity) with
  | None => None
  | Some re => Some (ids_callback None (ids_pipeline re start end_ (entities st)))
  end.

(** *** getArticlesForEntity *)

Definition newest_first (a1 a2 : Article.t) : Prop :=
  Article.date a2 ≤ Article.date a1.

#[global] Instance newest_first_dec a1 a2 : Decision (newest_first a1 a2) :=
  Z_le_dec (Article.date a2) (Article.date a1).

Definition oldest_first (a1 a2 : Article.t) : Prop :=
  Article.date a1 ≤ Article.date a2.

#[global] Instance oldest_first_dec a1 a2 : Decision (oldest_first a1 a2) :=
  Z_le_dec (Article.date a1) (Article.date a2).

Definition find_callback {A} (err : option error) (res : A) : promise A :=
  match err with
  | Some e => Rejected e
  | None => Resolved res
  end.

Definition getArticlesForEntity (entity : string) (start end_ : option Z)
    (st : store) : option (promise (list Article.t)) :=
  match getArticleIdsForEntity entity start end_ st with
  | None => None
  | Some p =>
      Some (and_then p (λ articleIds,
        find_callback None
          (merge_sort newest_first
             (filter (λ a, Article._id a ∈ articleIds) (Mongo.docs (articles st))))))
  end.

(** *** getMinAndMaxDates *)

(** [docs[0] ? docs[0].date.getTime() : null] *)
Definition first_date (ds : list Article.t) : option Z :=
  match ds with
  | [] => None
  | a :: _ => Some (Article.date a)
  end.

Definition _getMinDate (st : store) : promise (option Z) :=
  find_callback None
    (first_date (Mongo.limit 1 (merge_sort oldest_first (Mongo.docs (articles st))))).

Definition _getMaxDate (st : store) : promise (option Z) :=
  find_callback None
    (first_date (Mongo.limit 1 (merge_sort newest_first (Mongo.docs (articles st))))).

Definition getMinAndMaxDates (st : store) : promise (option Z * option Z) :=
  and_then (_getMinDate st) (λ min,
  and_then (_getMaxDate st) (λ max, Resolved (min, max))).

(** *** _adaptFromAlchemyDoc *)

(** [doc.source && doc.source.enriched && doc.source.enriched.url] *)
Definition enrichedUrl (doc : Alchemy.doc) : Alchemy.url_value :=
  match Alchemy.source doc with
  | None => Alchemy.UrlAbsent
  | Some src =>
      match Alchemy.enriched src with
      | None => Alchemy.UrlAbsent
      | Some en => Alchemy.enriched_url en
      end
  end.

Definition adapt_article (doc : Alchemy.doc) (u : Alchemy.url_object) : Article.t :=
  Article.mk (Alchemy.id doc) (Alchemy.title u)
             (new_Date (Alchemy.timestamp doc * 1000)) (Alchemy.url u).

Definition adapt_entity (doc : Alchemy.doc) (e : Alchemy.entity) : Entity.t :=
  Entity.mk (Alchemy.text e ++ Alchemy.id doc)%string
            (Alchemy.id doc)
            (new_Date (Alchemy.timestamp doc * 1000))
            (Alchemy.text e)
            (Alchemy.count e)
            (Alchemy.score (Alchemy.sentiment e)).

(** The predicate of the [filter] call: [e.text.length > 1]. *)
Definition long_text (e : Entity.t) : Prop :=
  (1 < String.length (Entity.text e))%nat.

#[global] Instance long_text_dec e : Decision (long_text e).
Proof. unfold long_text. apply _. Defined.

(** [Return None] is the [undefined] of a call that falls off the end.
    A string under [enriched.url] has no [entities] property, so the
    call of [map] on it throws. *)
Definition _adaptFromAlchemyDoc (doc : Alchemy.doc)
    : completion (option (Article.t * list Entity.t)) :=
  match enrichedUrl doc with
  | Alchemy.UrlAbsent => Return None
  | Alchemy.UrlString s =>
      if truthy_string s then Throw TypeError else Return None
  | Alchemy.UrlObject u =>
      let article := adapt_article doc u in
      let entities := filter long_text (adapt_entity doc <$> Alchemy.entities u) in
      match entities with
      | [] => Return None
      | _ :: _ => Return (Some (article, entities))
      end
  end.

(** *** uploadArticlesFromDocs *)

Definition upsert_article (a : Article.t) (st : store) : store :=
  Store (Mongo.findByIdAndUpdate (Article._id a) a (articles st)) (entities st).

Definition upsert_entity (st : store) (ep : Entity.t) : store :=
  Store (articles st) (Mongo.findByIdAndUpdate (Entity._id ep) ep (entities st)).

(** The body of the [forEach] callback for a document that is not
    [null].  The two inner guards always pass on what the adapter
    returns: [articlePrimitive] is an object and [entityPrimitives] is a
    list that is not empty. *)
Definition upload_doc (doc : Alchemy.doc) (st : store) : completion store :=
  match _adaptFromAlchemyDoc doc with
  | Throw e => Throw e
  | Return None => Return st
  | Return (Some (articlePrimitive, entityPrimitives)) =>
      Return (foldl upsert_entity (upsert_article articlePrimitive st) entityPrimitives)
  end.

(** An exception leaves [forEach]: the documents after the one that
    threw are not looked at.  The store reached so far is returned with
    the completion. *)
Fixpoint uploadArticlesFromDocs (docs : list (option Alchemy.doc)) (st : store)
    : store * completion unit :=
  match docs with
  | [] => (st, Return ())
  | None :: docs' => uploadArticlesFromDocs docs' st
  | Some doc :: docs' =>
      match upload_doc doc st with
      | Throw e => (st, Throw e)
      | Return st' => uploadArticlesFromDocs docs' st'
      end
  end.

(** *** pruneOlderThan30d *)

(** [moment().startOf('day').subtract(30, 'day').unix()*1000] *)
Definition prune_date (now : Moment.t) : Z :=
  Moment.unix (Moment.subtract_day 30 (Moment.startOf_day now)) * 1000.

Definition pruneOlderThan30d (now : Moment.t) (st : store) : store :=
  let date := prune_date now in
  Store (Mongo.remove (λ a, Mongo.lt (new_Date date) (Article.date a)) (articles st))
        (Mongo.remove (λ e, Mongo.lt (new_Date date) (Entity.date e)) (entities st)).

(** *** pruneCharEntities *)

(** [{$where: "this.text.length == 1"}] *)
Definition char_text (e : Entity.t) : Prop :=
  String.length (Entity.text e) = 1%nat.

#[global] Instance char_text_dec e : Decision (char_text e).
Proof. unfold char_text. apply _. Defined.

Definition pruneCharEntities (st : store) : store :=
  Store (articles st) (Mongo.remove char_text (entities st)).

End EntitiesDB.

(** ** Vocabulary of the statements *)

Module Spec.

(** The window a query works with, after the defaults are put in. *)
Definition window_start (start : option Z) : Z := JS.or_default start 0.
Definition window_end (end_ : option Z) : Z := JS.or_default end_ 9999999999999.
Definition group_limit (limit : option nat) : nat := JS.or_default_nat limit 100.

(** The stored mentions. *)
Definition stored (st : store) (d : Entity.t) : Prop :=
  ∃ k, entities st !! k = Some d.

(** The mentions of a list whose lowercased text is [k]. *)
Definition members (k : string) (ds : list Entity.t) : list Entity.t :=
  filter (λ d, Text.toLower (Entity.text d) = k) ds.

Definition total_count (ds : list Entity.t) : Z :=
  foldr Z.add 0 (Entity.count <$> ds).

(** The sentiments added one after the other, from zero. *)
Definition total_sentiment (ds : list Entity.t) : float :=
  foldl PrimFloat.add 0%float (Entity.sentiment <$> ds).

(** The unweighted arithmetic mean of the sentiments, as binary64
    arithmetic gives it: their total divided by their number. *)
Definition mean_sentiment (ds : list Entity.t) : float :=
  (total_sentiment ds / Mongo.to_double (length ds))%float.

(** Equality of two texts up to the case of the letters A to Z, read off
    the character codes. *)
Definition capital (n : nat) : bool := (65 <=? n)%nat && (n <=? 90)%nat.

Definition same_char (c d : ascii) : bool :=
  let a := nat_of_ascii c in
  let b := nat_of_ascii d in
  (a =? b)%nat
  || (capital a && (b =? a + 32)%nat)
  || (capital b && (a =? b + 32)%nat).

Fixpoint same_text_b (s t : string) : bool :=
  match s, t with
  | EmptyString, EmptyString => true
  | String c s', String d t' => same_char c d && same_text_b s' t'
  | _, _ => false
  end.

Definition same_text (s t : string) : Prop := same_text_b s t = true.

#[global] Instance same_text_dec s t : Decision (same_text s t).
Proof. unfold same_text. apply _. Defined.

(** A text without any of the letters A to Z. *)
Definition lower_case (s : string) : Prop :=
  Forall (λ c, capital (nat_of_ascii c) = false) (list_ascii_of_string s).

(** A text whose characters all stand for themselves in a pattern. *)
Definition plain (s : string) : Prop :=
  Forall (λ c, RegExp.is_syntax_char c = false) (list_ascii_of_string s).

(** A store as ingestion builds it: every record sits under its own
    [_id], and the [_id] of a mention is its text followed by the id of
    its article. *)
Definition well_keyed (st : store) : Prop :=
  (∀ k a, articles st !! k = Some a → k = Article._id a)
  ∧ (∀ k e, entities st !! k = Some e →
       k = Entity._id e
       ∧ Entity._id e = (Entity.text e ++ Entity.article_id e)%string).

(** What a batch hands to the store, in order: the pairs adapted from
    its documents, up to the first document on which the adapter
    throws. *)
Fixpoint adapted (docs : list (option Alchemy.doc)) : list (Article.t * list Entity.t) :=
  match docs with
  | [] => []
  | None :: docs' => adapted docs'
  | Some doc :: docs' =>
      match EntitiesDB._adaptFromAlchemyDoc doc with
      | JS.Throw _ => []
      | JS.Return None => adapted docs'
      | JS.Return (Some p) => p :: adapted docs'
      end
  end.

Definition written_articles (docs : list (option Alchemy.doc)) : list Article.t :=
  (adapted docs).*1.

Definition written_mentions (docs : list (option Alchemy.doc)) : list Entity.t :=
  mjoin (adapted docs).*2.

(** A service name that contains "mongolab". *)
Definition mongolab (svc : VCAP.service) : Prop :=
  ∃ m, String.substring m 8 (VCAP.name svc) = "mongolab"%string.

Definition sum_values (gs : list Group.t) : Z :=
  foldr Z.add 0 (Group.value <$> gs).


End Spec.

(** * Properties *)

(** ** Grouping *)

Section Grouping.
Context {A : Type} (key : Entity.t → string) (step : option A → Entity.t → A).

(** The accumulator of a key only sees the documents of that key, in
    order. *)
Lemma group_lookup (ds : list Entity.t) (k : string) :
  Mongo.group key step ds !! k
  = foldl (λ o d, Some (step o d)) None (filter (λ d, key d = k) ds).
Proof.
  induction ds as [|d ds IH] using rev_ind; [apply lookup_empty|].
  unfold Mongo.group in *. rewrite foldl_snoc, filter_app.
  destruct (decide (key d = k)) as [Hk|Hk].
  - rewrite filter_cons_True by done. rewrite filter_nil, foldl_snoc.
    subst k. rewrite lookup_insert_eq. f_equal. f_equal. exact IH.
  - rewrite filter_cons_False by done. rewrite filter_nil, app_nil_r.
    by rewrite lookup_insert_ne.
Qed.

Lemma foldl_step_Some (o : option A) (d : Entity.t) (ds : list Entity.t) :
  is_Some (foldl (λ o d, Some (step o d)) o (d :: ds)).
Proof.
  revert o d. induction ds as [|d' ds IH]; intros o d; [by eexists|].
  apply (IH (Some (step o d)) d').
Qed.

Lemma group_lookup_None (ds : list Entity.t) (k : string) :
  Mongo.group key step ds !! k = None ↔ filter (λ d, key d = k) ds = [].
Proof.
  rewrite group_lookup. destruct (filter _ ds) as [|d l]; [done|].
  split; [|done]. intros H. destruct (foldl_step_Some None d l) as [x Hx]. congruence.
Qed.

Lemma group_empty (ds : list Entity.t) : Mongo.group key step ds = ∅ ↔ ds = [].
Proof.
  split; [|by intros ->].
  destruct ds as [|d ds]; [done|]. intros H.
  assert (Hk : Mongo.group key step (d :: ds) !! key d = None)
    by (rewrite H; apply lookup_empty).
  apply group_lookup_None in Hk. by rewrite filter_cons_True in Hk.
Qed.

End Grouping.

Lemma total_count_snoc (ds : list Entity.t) (d : Entity.t) :
  Spec.total_count (ds ++ [d]) = Spec.total_count ds + Entity.count d.
Proof.
  unfold Spec.total_count. rewrite fmap_app, foldr_app. simpl.
  generalize (Entity.count <$> ds). intros l. induction l as [|x l IH]; simpl; lia.
Qed.

(** What the accumulator of [$sum] and [$avg] holds after a run of
    documents. *)
Lemma sum_avg_run (ds : list Entity.t) (o : option Mongo.sum_avg) :
  foldl (λ o d, Some (Mongo.sum_avg_step o d)) o ds
  = match ds with
    | [] => o
    | _ :: _ =>
        let a := default Mongo.sum_avg_init o in
        Some (Mongo.SumAvg
                (Mongo.sum_count a + Spec.total_count ds)
                (foldl PrimFloat.add (Mongo.sum_sentiment a) (Entity.sentiment <$> ds))
                (Mongo.population a + length ds))
    end.
Proof.
  revert o. induction ds as [|d ds IH]; intros o; [done|].
  change (foldl _ o (d :: ds))
    with (foldl (λ o d, Some (Mongo.sum_avg_step o d)) (Some (Mongo.sum_avg_step o d)) ds).
  rewrite IH. destruct ds as [|d' ds].
  - cbn. unfold Mongo.sum_avg_step. f_equal. f_equal; lia.
  - cbn [default Mongo.sum_avg_step Mongo.sum_count Mongo.sum_sentiment Mongo.population].
    change (Spec.total_count (d :: d' :: ds))
      with (Entity.count d + Spec.total_count (d' :: ds)).
    f_equal. f_equal; simpl; lia.
Qed.

Lemma sum_avg_fold (ds : list Entity.t) (a : Mongo.sum_avg) :
  foldl (λ o d, Some (Mongo.sum_avg_step o d)) None ds = Some a →
  ds ≠ []
  ∧ Mongo.sum_count a = Spec.total_count ds
  ∧ Mongo.sum_sentiment a = Spec.total_sentiment ds
  ∧ Mongo.population a = length ds.
Proof.
  rewrite sum_avg_run. destruct ds as [|d ds]; [done|].
  intros [= <-]. simpl. done.
Qed.

Lemma push_run (ds : list Entity.t) (o : option (list string)) :
  foldl (λ o d, Some (Mongo.push_step o d)) o ds
  = match ds with
    | [] => o
    | _ :: _ => Some (default [] o ++ (Entity.article_id <$> ds))
    end.
Proof.
  revert o. induction ds as [|d ds IH]; intros o; [done|].
  change (foldl _ o (d :: ds))
    with (foldl (λ o d, Some (Mongo.push_step o d)) (Some (Mongo.push_step o d)) ds).
  rewrite IH. destruct ds as [|d' ds]; [done|].
  simpl. unfold Mongo.push_step. by rewrite <- app_assoc.
Qed.

Lemma push_fold (ds : list Entity.t) :
  foldl (λ o d, Some (Mongo.push_step o d)) None ds
  = match ds with [] => None | _ => Some (Entity.article_id <$> ds) end.
Proof. rewrite push_run. by destruct ds. Qed.

#[local] Instance desc_trans : Transitive Group.desc.
Proof. unfold Group.desc. intros x y z ? ?. lia. Qed.

#[local] Instance desc_total : Total Group.desc.
Proof. unfold Group.desc. intros x y. lia. Qed.

(** The rows of the [$group] stage of [aggregateEntities]. *)
Lemma aggregate_grouped_elem (ds : list Entity.t) (g : Group.t) :
  g ∈ EntitiesDB.aggregate_grouped ds →
  Spec.members (Group._id g) ds ≠ []
  ∧ Group.value g = Spec.total_count (Spec.members (Group._id g) ds)
  ∧ Group.sentiment g = Spec.mean_sentiment (Spec.members (Group._id g) ds).
Proof.
  unfold EntitiesDB.aggregate_grouped.
  intros ([k a] & -> & Hka)%list_elem_of_fmap.
  apply elem_of_map_to_list in Hka. rewrite group_lookup in Hka.
  apply sum_avg_fold in Hka as (Hne & Hc & Hs & Hn). simpl.
  unfold Spec.members, Spec.mean_sentiment.
  split; [done|]. split; [done|]. by rewrite Hs, Hn.
Qed.

Lemma aggregate_grouped_keys (ds : list Entity.t) (d : Entity.t) :
  d ∈ ds →
  Text.toLower (Entity.text d) ∈ Group._id <$> EntitiesDB.aggregate_grouped ds.
Proof.
  intros Hd. unfold EntitiesDB.aggregate_grouped.
  set (m := Mongo.group _ _ ds).
  destruct (m !! Text.toLower (Entity.text d)) as [a|] eqn:Hm.
  - apply list_elem_of_fmap. exists (Group.of_acc (Text.toLower (Entity.text d), a)).
    split; [done|]. apply list_elem_of_fmap. eexists; split; [done|].
    by apply elem_of_map_to_list.
  - apply group_lookup_None in Hm.
    assert (d ∈ filter (λ d0, Text.toLower (Entity.text d0) = Text.toLower (Entity.text d)) ds)
      as Hin by by apply list_elem_of_filter.
    rewrite Hm in Hin. by apply not_elem_of_nil in Hin.
Qed.

Lemma aggregate_grouped_NoDup (ds : list Entity.t) :
  NoDup (Group._id <$> EntitiesDB.aggregate_grouped ds).
Proof.
  unfold EntitiesDB.aggregate_grouped. rewrite <- list_fmap_compose.
  apply (NoDup_fst_map_to_list (Mongo.group _ _ ds)).
Qed.

Lemma aggregate_grouped_nil (ds : list Entity.t) :
  EntitiesDB.aggregate_grouped ds = [] ↔ ds = [].
Proof.
  unfold EntitiesDB.aggregate_grouped. split; [|by intros ->].
  intros H%fmap_nil_inv%map_to_list_empty_iff. by apply group_empty in H.
Qed.

(** ** Case *)

(** Case analysis on the eight bits of a character. *)
Ltac ascii_cases c :=
  let b0 := fresh "b" in let b1 := fresh "b" in let b2 := fresh "b" in
  let b3 := fresh "b" in let b4 := fresh "b" in let b5 := fresh "b" in
  let b6 := fresh "b" in let b7 := fresh "b" in
  destruct c as [b0 b1 b2 b3 b4 b5 b6 b7];
  destruct b0, b1, b2, b3, b4, b5, b6, b7.






Lemma lower_lower_ascii (c : ascii) :
  Text.lower_ascii (Text.lower_ascii c) = Text.lower_ascii c.
Proof. ascii_cases c; reflexivity. Qed.

Lemma toLower_idemp (s : string) : Text.toLower (Text.toLower s) = Text.toLower s.
Proof. induction s as [|c s IH]; simpl; [done|]. by rewrite lower_lower_ascii, IH. Qed.

Lemma toLower_length (s : string) : String.length (Text.toLower s) = String.length s.
Proof. induction s as [|c s IH]; simpl; [done|]. by rewrite IH. Qed.

#[local] Instance eq_ignore_case_dec s t : Decision (Text.eq_ignore_case s t).
Proof. unfold Text.eq_ignore_case. apply _. Defined.

(** What [$toLower] does to a character code: the codes 65 to 90 move up
    by 32, every other code stays. *)
Lemma lower_code (c : ascii) :
  nat_of_ascii (Text.lower_ascii c)
  = if Spec.capital (nat_of_ascii c)
    then (nat_of_ascii c + 32)%nat else nat_of_ascii c.
Proof. ascii_cases c; reflexivity. Qed.

Ltac code_cases :=
  repeat match goal with
    | H : context [(?a <=? ?b)%nat] |- _ => destruct (Nat.leb_spec a b)
    | |- context [(?a <=? ?b)%nat] => destruct (Nat.leb_spec a b)
    | H : context [(?a =? ?b)%nat] |- _ => destruct (Nat.eqb_spec a b)
    | |- context [(?a =? ?b)%nat] => destruct (Nat.eqb_spec a b)
    end;
  simpl in *; try done; try lia.

Lemma lower_ascii_same (c d : ascii) :
  Text.lower_ascii c = Text.lower_ascii d ↔ Spec.same_char c d = true.
Proof.
  split.
  - intros H. apply (f_equal nat_of_ascii) in H. rewrite !lower_code in H.
    unfold Spec.same_char, Spec.capital in *. cbv zeta.
    generalize dependent (nat_of_ascii c). generalize dependent (nat_of_ascii d).
    intros b a H. code_cases.
  - intros H.
    rewrite <- (ascii_nat_embedding (Text.lower_ascii c)),
            <- (ascii_nat_embedding (Text.lower_ascii d)).
    f_equal. rewrite !lower_code.
    unfold Spec.same_char, Spec.capital in *. cbv zeta in H.
    generalize dependent (nat_of_ascii c). generalize dependent (nat_of_ascii d).
    intros b a H. code_cases.
Qed.

(** Two texts are the same up to the case of their letters exactly when
    [$toLower] gives them one key. *)
Lemma toLower_same (s t : string) :
  Text.toLower s = Text.toLower t ↔ Spec.same_text s t.
Proof.
  unfold Spec.same_text. revert t.
  induction s as [|c s IH]; intros [|d t]; simpl; try done.
  rewrite andb_true_iff, <- IH, <- lower_ascii_same.
  split; [by intros [= -> ->]|by intros [-> ->]].
Qed.

Lemma same_text_refl (s : string) : Spec.same_text s s.
Proof. by apply toLower_same. Qed.

Lemma same_text_sym (s t : string) : Spec.same_text s t → Spec.same_text t s.
Proof. rewrite <- !toLower_same. done. Qed.

Lemma same_text_trans (s t u : string) :
  Spec.same_text s t → Spec.same_text t u → Spec.same_text s u.
Proof. rewrite <- !toLower_same. congruence. Qed.

Lemma toLower_lower_case (s : string) : Spec.lower_case (Text.toLower s).
Proof.
  unfold Spec.lower_case. induction s as [|c s IH]; simpl; [constructor|].
  constructor; [|done]. rewrite lower_code. unfold Spec.capital.
  generalize (nat_of_ascii c). intros a. code_cases.
Qed.

Lemma lower_case_toLower (k : string) : Spec.lower_case k → Text.toLower k = k.
Proof.
  unfold Spec.lower_case. induction k as [|c k IH]; simpl; [done|].
  intros [Hc Hk]%Forall_cons. rewrite (IH Hk). f_equal.
  unfold Text.lower_ascii, Text.is_upper. cbv zeta.
  unfold Spec.capital in Hc. by rewrite Hc.
Qed.


(** The texts that [$toLower] sends to a lower-case key are the texts
    that are the key up to case. *)
Lemma toLower_key (k t : string) :
  Spec.lower_case k → Text.toLower t = k ↔ Spec.same_text t k.
Proof. intros Hk. by rewrite <- toLower_same, (lower_case_toLower k). Qed.

(** "IBM" and "ibm" are the same up to case, "IBM" and "ibn" are not,
    and no text is the same as a longer one. *)
Example same_text_IBM :
  Spec.same_text "IBM" "ibm" ∧ ¬ Spec.same_text "IBM" "ibn"
  ∧ ¬ Spec.same_text "ibm" "ibms" ∧ ¬ Spec.same_text "[" "{".
Proof. vm_compute. repeat split; congruence. Qed.

(** ** aggregateEntities *)

Lemma docs_elem {A} (coll : gmap string A) (x : A) :
  x ∈ Mongo.docs coll ↔ ∃ k, coll !! k = Some x.
Proof.
  unfold Mongo.docs. rewrite list_elem_of_fmap. split.
  - intros ([k y] & -> & Hin). exists k. by apply elem_of_map_to_list.
  - intros [k Hk]. exists (k, x). split; [done|]. by apply elem_of_map_to_list.
Qed.

Lemma aggregate_matched_elem (s e : Z) (st : store) (d : Entity.t) :
  d ∈ EntitiesDB.aggregate_matched s e (entities st)
  ↔ Spec.stored st d ∧ s ≤ Entity.date d < e.
Proof.
  unfold EntitiesDB.aggregate_matched. rewrite list_elem_of_filter, docs_elem.
  unfold EntitiesDB.aggregate_match, Mongo.gte_lt, JS.new_Date, Spec.stored.
  tauto.
Qed.

(** The [$match] stage of [aggregateEntities] keeps the records of the
    scan that are dated inside the window. *)
Lemma aggregate_matched_window (s e : Z) (coll : gmap string Entity.t) :
  EntitiesDB.aggregate_matched s e coll
  = filter (λ d, s ≤ Entity.date d < e) (Mongo.docs coll).
Proof. reflexivity. Qed.

Lemma window_elem (s e : Z) (st : store) (d : Entity.t) :
  d ∈ filter (λ d, s ≤ Entity.date d < e) (Mongo.docs (entities st))
  ↔ Spec.stored st d ∧ s ≤ Entity.date d < e.
Proof. rewrite <- aggregate_matched_window. apply aggregate_matched_elem. Qed.

Lemma window_nil (s e : Z) (st : store) :
  filter (λ d, s ≤ Entity.date d < e) (Mongo.docs (entities st)) = []
  ↔ ∀ d, Spec.stored st d → ¬ (s ≤ Entity.date d < e).
Proof.
  split.
  - intros Hnil d Hst Hw.
    assert (d ∈ filter (λ d, s ≤ Entity.date d < e) (Mongo.docs (entities st))) as Hd
      by (apply window_elem; done).
    rewrite Hnil in Hd. by apply not_elem_of_nil in Hd.
  - intros Hall. destruct (filter _ _) as [|d ds] eqn:Hmd; [done|].
    assert (d ∈ filter (λ d, s ≤ Entity.date d < e) (Mongo.docs (entities st))) as Hd
      by (rewrite Hmd; apply list_elem_of_here).
    apply window_elem in Hd as [Hst Hw]. by destruct (Hall d Hst).
Qed.

(** A row of the grouping has a lower-case key and aggregates the
    documents whose text is that key up to case. *)
Lemma aggregate_grouped_row (ds : list Entity.t) (g : Group.t) :
  g ∈ EntitiesDB.aggregate_grouped ds →
  let ms := filter (λ d, Spec.same_text (Entity.text d) (Group._id g)) ds in
  Spec.lower_case (Group._id g)
  ∧ ms ≠ []
  ∧ Group.value g = Spec.total_count ms
  ∧ Group.sentiment g = Spec.mean_sentiment ms.
Proof.
  intros Hg ms.
  destruct (aggregate_grouped_elem ds g Hg) as (Hne & Hv & Hs).
  assert (Hlow : Spec.lower_case (Group._id g)).
  { destruct (Spec.members (Group._id g) ds) as [|d ms'] eqn:Hm; [done|].
    assert (d ∈ Spec.members (Group._id g) ds) as Hd
      by (rewrite Hm; apply list_elem_of_here).
    apply list_elem_of_filter in Hd as [<- _]. apply toLower_lower_case. }
  assert (Hms : ms = Spec.members (Group._id g) ds).
  { unfold ms, Spec.members. apply list_filter_iff. intros d.
    symmetry. by apply toLower_key. }
  rewrite Hms. done.
Qed.

(** Every document has its row. *)
Lemma aggregate_grouped_cover (ds : list Entity.t) (d : Entity.t) :
  d ∈ ds →
  ∃ g, g ∈ EntitiesDB.aggregate_grouped ds
       ∧ Spec.same_text (Entity.text d) (Group._id g).
Proof.
  intros Hd. apply aggregate_grouped_keys in Hd.
  apply list_elem_of_fmap in Hd as (g & Hk & Hg). exists g. split; [done|].
  rewrite <- Hk. apply toLower_same. by rewrite toLower_idemp.
Qed.


Lemma aggregateEntities_unfold (start end_ : option Z) (limit : option nat) (st : store) :
  EntitiesDB.aggregateEntities start end_ limit st
  = JS.Resolved
      (take (Spec.group_limit limit)
         (merge_sort Group.desc
            (EntitiesDB.aggregate_grouped
               (EntitiesDB.aggregate_matched (Spec.window_start start)
                  (Spec.window_end end_) (entities st))))).
Proof. reflexivity. Qed.

Lemma group_limit_pos (limit : option nat) : (0 < Spec.group_limit limit)%nat.
Proof. destruct limit as [[|n]|]; simpl; lia. Qed.

Lemma take_pos_nil {A} (n : nat) (l : list A) : (0 < n)%nat → take n l = [] ↔ l = [].
Proof. destruct n, l; simpl; intros; split; (done || lia). Qed.

Lemma merge_sort_nil {A} (R : relation A) `{∀ x y, Decision (R x y)} (l : list A) :
  merge_sort R l = [] ↔ l = [].
Proof.
  split; [|by intros ->].
  intros Hl. apply Permutation_nil_r. by rewrite <- (merge_sort_Permutation R l), Hl.
Qed.

Lemma take_length_or_all {A} (n : nat) (l : list A) :
  length (take n l) = n ∨ take n l = l.
Proof.
  destruct (decide (n ≤ length l)%nat) as [H|H].
  - left. rewrite length_take. lia.
  - right. apply take_ge. lia.
Qed.

Lemma sum_Z_Permutation (l1 l2 : list Z) :
  l1 ≡ₚ l2 → foldr Z.add 0 l1 = foldr Z.add 0 l2.
Proof. induction 1; simpl; lia. Qed.

Lemma total_count_Permutation (l1 l2 : list Entity.t) :
  l1 ≡ₚ l2 → Spec.total_count l1 = Spec.total_count l2.
Proof. intros H. apply sum_Z_Permutation. by apply fmap_Permutation. Qed.

(** What [aggregateEntities] resolves with, in terms of the stored
    mentions dated inside the window: the rows are sorted by descending
    value and no more than the limit; each row has a lower-case key and
    carries the sum of the counts and the mean of the sentiments of the
    mentions whose text is its key up to case; no two rows share a key;
    unless the limit is reached every mention has its row, and a row
    that was cut off has no larger value than a row that was kept. *)
Lemma aggregateEntities_result
    (start end_ : option Z) (limit : option nat) (st : store) :
  let window :=
    filter (λ d, Spec.window_start start ≤ Entity.date d < Spec.window_end end_)
           (Mongo.docs (entities st)) in
  let mentions (k : string) :=
    filter (λ d, Spec.same_text (Entity.text d) k) window in
  ∃ groups : list Group.t,
    EntitiesDB.aggregateEntities start end_ limit st
      = JS.Resolved (take (Spec.group_limit limit) groups)
    ∧ StronglySorted (λ g1 g2, Group.value g2 ≤ Group.value g1) groups
    ∧ NoDup (Group._id <$> groups)
    ∧ (∀ d, d ∈ window →
         ∃ g, g ∈ groups ∧ Spec.same_text (Entity.text d) (Group._id g))
    ∧ (∀ g, g ∈ groups →
         Spec.lower_case (Group._id g)
         ∧ mentions (Group._id g) ≠ []
         ∧ Group.value g = Spec.total_count (mentions (Group._id g))
         ∧ Group.sentiment g = Spec.mean_sentiment (mentions (Group._id g)))
    ∧ (groups = [] ↔ window = []).
Proof.
  intros window mentions.
  set (grouped := EntitiesDB.aggregate_grouped window).
  exists (merge_sort Group.desc grouped).
  assert (Hperm : merge_sort Group.desc grouped ≡ₚ grouped)
    by apply merge_sort_Permutation.
  split; [reflexivity|].
  split; [apply (StronglySorted_merge_sort Group.desc)|].
  split; [rewrite Hperm; apply aggregate_grouped_NoDup|].
  split.
  { intros d Hd. destruct (aggregate_grouped_cover window d Hd) as (g & Hg & Hs).
    exists g. by rewrite Hperm. }
  split.
  { intros g Hg. rewrite Hperm in Hg. by apply aggregate_grouped_row. }
  rewrite merge_sort_nil. apply aggregate_grouped_nil.
Qed.

(** The same, read off the rows that come back. *)
Lemma aggregateEntities_rows
    (start end_ : option Z) (limit : option nat) (st : store) :
  let window :=
    filter (λ d, Spec.window_start start ≤ Entity.date d < Spec.window_end end_)
           (Mongo.docs (entities st)) in
  let mentions (k : string) :=
    filter (λ d, Spec.same_text (Entity.text d) k) window in
  ∃ rows : list Group.t,
    EntitiesDB.aggregateEntities start end_ limit st = JS.Resolved rows
    ∧ (length rows ≤ Spec.group_limit limit)%nat
    ∧ StronglySorted (λ g1 g2, Group.value g2 ≤ Group.value g1) rows
    ∧ NoDup (Group._id <$> rows)
    ∧ (∀ g, g ∈ rows →
         Spec.lower_case (Group._id g)
         ∧ mentions (Group._id g) ≠ []
         ∧ Group.value g = Spec.total_count (mentions (Group._id g))
         ∧ Group.sentiment g = Spec.mean_sentiment (mentions (Group._id g)))
    ∧ (length rows = Spec.group_limit limit
       ∨ ∀ d, d ∈ window →
           ∃ g, g ∈ rows ∧ Spec.same_text (Entity.text d) (Group._id g))
    ∧ (∀ d, d ∈ window →
         (∃ g, g ∈ rows ∧ Spec.same_text (Entity.text d) (Group._id g))
         ∨ ∀ g, g ∈ rows →
             Spec.total_count (mentions (Entity.text d)) ≤ Group.value g)
    ∧ (rows = [] ↔ ∀ d, Spec.stored st d →
         ¬ (Spec.window_start start ≤ Entity.date d < Spec.window_end end_)).
Proof.
  intros window mentions.
  destruct (aggregateEntities_result start end_ limit st)
    as (groups & Hres & Hsort & Hnd & Hcov & Hrow & Hnil).
  fold window in Hcov, Hrow, Hnil. fold mentions in Hrow.
  set (n := Spec.group_limit limit) in *.
  exists (take n groups).
  split; [done|].
  split; [rewrite length_take; lia|].
  split.
  { rewrite <- (take_drop n groups) in Hsort.
    by apply StronglySorted_app_1_l in Hsort. }
  split.
  { rewrite <- (take_drop n groups), fmap_app in Hnd.
    by apply NoDup_app in Hnd as [Hnd _]. }
  split; [intros g Hg%subseteq_take; by apply Hrow|].
  split.
  { destruct (take_length_or_all n groups) as [Hl|Hl]; [by left|right].
    rewrite Hl. exact Hcov. }
  split.
  { intros d Hd. destruct (Hcov d Hd) as (h & Hh & Hsame).
    rewrite <- (take_drop n groups) in Hh. apply elem_of_app in Hh as [Hh|Hh].
    - left. by exists h.
    - right. intros g Hg.
      assert (Hs : StronglySorted Group.desc (take n groups ++ drop n groups))
        by (rewrite take_drop; exact Hsort).
      pose proof (StronglySorted_app_1_elem_of _ _ _ _ _ Hs Hg Hh) as Hle.
      unfold Group.desc in Hle.
      assert (Hhg : h ∈ groups) by (by apply subseteq_drop in Hh).
      destruct (Hrow h Hhg) as (Hlow & _ & Hv & _).
      assert (Hm : mentions (Entity.text d) = mentions (Group._id h)).
      { unfold mentions. apply list_filter_iff. intros x. split; intros Hx.
        - by apply (same_text_trans _ (Entity.text d)).
        - apply (same_text_trans _ (Group._id h)); [done|by apply same_text_sym]. }
      rewrite Hm. unfold mentions. unfold mentions in Hv. rewrite <- Hv. exact Hle. }
  rewrite <- window_nil. unfold window in Hnil. rewrite <- Hnil.
  apply take_pos_nil, group_limit_pos.
Qed.


(** "IBM" (count 3, sentiment 0.5) and "ibm" (count 5, sentiment 0.25)
    dated inside the window make one row of value 8, whose sentiment is
    the mean of the two. *)
Example aggregateEntities_merges_case :
  EntitiesDB.aggregateEntities (Some 500) (Some 3000) (Some 10%nat)
    (Store ∅ (list_to_map
       [("IBMa1"%string, Entity.mk "IBMa1" "a1" 1000 "IBM" 3 0.5%float);
        ("ibma2"%string, Entity.mk "ibma2" "a2" 2000 "ibm" 5 0.25%float)]))
  = JS.Resolved [Group.mk "ibm" 8 0.375%float].
Proof. vm_compute. reflexivity. Qed.

(** The mean is the one of binary64 arithmetic: sentiments 0.1 and 0.2
    average to 0.15000000000000002, and three sentiments 0.1 to
    0.10000000000000002. *)
Example aggregateEntities_mean_is_binary64 :
  EntitiesDB.aggregateEntities None None None
    (Store ∅ (list_to_map
       [("IBMa1"%string, Entity.mk "IBMa1" "a1" 1000 "IBM" 3 0.1%float);
        ("ibma2"%string, Entity.mk "ibma2" "a2" 2000 "ibm" 5 0.2%float)]))
  = JS.Resolved [Group.mk "ibm" 8 0.15000000000000002%float]
  ∧ EntitiesDB.aggregateEntities None None None
      (Store ∅ (list_to_map
         [("IBMa1"%string, Entity.mk "IBMa1" "a1" 1000 "IBM" 1 0.1%float);
          ("ibma2"%string, Entity.mk "ibma2" "a2" 2000 "ibm" 1 0.1%float);
          ("Ibma3"%string, Entity.mk "Ibma3" "a3" 3000 "Ibm" 1 0.1%float)]))
    = JS.Resolved [Group.mk "ibm" 3 0.10000000000000002%float].
Proof. vm_compute. split; reflexivity. Qed.

(** Rows of value 50, 30, 80 and 10 with a limit of 2: the rows of value
    80 and 50, in that order. *)
Example aggregateEntities_ranks_and_limits :
  EntitiesDB.aggregateEntities None None (Some 2%nat)
    (Store ∅ (list_to_map
       [("aax"%string, Entity.mk "aax" "x" 10 "aa" 50 0%float);
        ("bbx"%string, Entity.mk "bbx" "x" 10 "bb" 30 0%float);
        ("ccx"%string, Entity.mk "ccx" "x" 10 "cc" 80 0%float);
        ("ddx"%string, Entity.mk "ddx" "x" 10 "dd" 10 0%float)]))
  = JS.Resolved [Group.mk "cc" 80 0%float; Group.mk "aa" 50 0%float].
Proof. vm_compute. reflexivity. Qed.

(** ** getArticleIdsForEntity *)

Lemma ids_matched_elem (re : RegExp.t) (s e : Z) (st : store) (d : Entity.t) :
  d ∈ EntitiesDB.ids_matched re s e (entities st)
  ↔ Spec.stored st d ∧ RegExp.test re (Entity.text d) = true
    ∧ s ≤ Entity.date d < e.
Proof.
  unfold EntitiesDB.ids_matched. rewrite list_elem_of_filter, docs_elem.
  unfold EntitiesDB.ids_match, Mongo.gte_lt, JS.new_Date, Spec.stored.
  tauto.
Qed.

Lemma parse_atom_plain (c : ascii) :
  RegExp.is_syntax_char c = false →
  RegExp.parse_atom c = Some (RegExp.Lit c) ∧ Ascii.eqb c "|" = false.
Proof.
  unfold RegExp.parse_atom, RegExp.is_syntax_char. simpl.
  intros H. repeat (apply orb_false_elim in H as [? H]).
  repeat match goal with Hc : Ascii.eqb c _ = false |- _ => rewrite Hc; clear Hc end.
  done.
Qed.

Lemma compile_plain_app (s rest : string) (alt : RegExp.alternative) (alts : RegExp.t) :
  Spec.plain s →
  RegExp.compile rest = Some (alt :: alts) →
  RegExp.compile (s ++ rest)
  = Some (((RegExp.Lit <$> list_ascii_of_string s) ++ alt) :: alts).
Proof.
  unfold Spec.plain. intros Hs Hrest.
  induction s as [|c s IH]; simpl in *; [done|].
  apply Forall_cons in Hs as [Hc Hs].
  destruct (parse_atom_plain c Hc) as [Hp Hbar].
  change (String c s +:+ rest) with (String c (s +:+ rest)). simpl.
  by rewrite Hbar, Hp, (IH Hs).
Qed.

(** The pattern built from a plain entity text. *)
Lemma compile_entity_pattern (entity : string) :
  Spec.plain entity →
  RegExp.compile (EntitiesDB.entity_pattern entity)
  = Some [RegExp.Bol :: (RegExp.Lit <$> list_ascii_of_string entity) ++ [RegExp.Eol]].
Proof.
  intros Hp. unfold EntitiesDB.entity_pattern.
  change ("^" +:+ entity +:+ "$") with (String "^" (entity +:+ "$")).
  cbn [RegExp.compile]. change (Ascii.eqb "^" "|") with false. cbv iota.
  by rewrite (compile_plain_app entity "$" [RegExp.Eol] []).
Qed.

Lemma match_here_literals (l : list ascii) (b : bool) (s : string) :
  RegExp.match_here ((RegExp.Lit <$> l) ++ [RegExp.Eol]) b s = true
  ↔ Text.toUpper s = Text.toUpper (string_of_list_ascii l).
Proof.
  revert b s. induction l as [|c l IH]; intros b s; simpl.
  - destruct s; simpl; split; congruence.
  - destruct s as [|d s]; simpl; [split; congruence|].
    rewrite andb_true_iff, IH. unfold RegExp.char_match.
    rewrite Ascii.eqb_eq. split.
    + intros [-> ->]. done.
    + intros [= -> ->]. done.
Qed.

Lemma search_anchored_later (alt : RegExp.alternative) (s : string) :
  RegExp.search [RegExp.Bol :: alt] false s = false.
Proof. induction s as [|c s IH]; simpl; [done|]. by rewrite IH. Qed.

(** For a plain entity text the pattern accepts exactly the texts equal
    to it up to case. *)
Lemma test_plain_entity (entity : string) (re : RegExp.t) (text : string) :
  Spec.plain entity →
  RegExp.compile (EntitiesDB.entity_pattern entity) = Some re →
  RegExp.test re text = true ↔ Text.eq_ignore_case text entity.
Proof.
  intros Hp. rewrite (compile_entity_pattern entity Hp). intros [= <-].
  unfold RegExp.test, Text.eq_ignore_case.
  assert (Hs : ∀ b, RegExp.search
     [RegExp.Bol :: (RegExp.Lit <$> list_ascii_of_string entity) ++ [RegExp.Eol]] b text
     = b && RegExp.match_here
              ((RegExp.Lit <$> list_ascii_of_string entity) ++ [RegExp.Eol]) b text).
  { intros b. destruct text as [|c text]; simpl.
    - by rewrite !orb_false_r.
    - by rewrite search_anchored_later, !orb_false_r. }
  rewrite Hs. simpl.
  by rewrite match_here_literals, string_of_list_ascii_of_string.
Qed.

(** "bank" against "bankrupt", "Bank" and "BANK". *)
Example test_bank :
  RegExp.compile (EntitiesDB.entity_pattern "bank")
  = Some [[RegExp.Bol; RegExp.Lit "b"; RegExp.Lit "a"; RegExp.Lit "n"; RegExp.Lit "k";
           RegExp.Eol]]
  ∧ (∀ re, RegExp.compile (EntitiesDB.entity_pattern "bank") = Some re →
           RegExp.test re "bankrupt" = false
           ∧ RegExp.test re "Bank" = true
           ∧ RegExp.test re "BANK" = true).
Proof. split; [reflexivity|]. by intros re [= <-]. Qed.

Lemma ids_pipeline_nil (re : RegExp.t) (s e : Z) (coll : gmap string Entity.t) :
  EntitiesDB.ids_matched re s e coll = [] →
  EntitiesDB.ids_pipeline re s e coll = [].
Proof. unfold EntitiesDB.ids_pipeline. intros ->. unfold Mongo.group. simpl. by rewrite map_to_list_empty. Qed.

(** When no stored mention passes the [$match] stage there is no group,
    and the callback throws on [res[0].value]. *)
Lemma getArticleIdsForEntity_no_match (entity : string) (re : RegExp.t)
    (start end_ : option Z) (st : store) :
  RegExp.compile (EntitiesDB.entity_pattern entity) = Some re →
  (∀ d, Spec.stored st d →
        ¬ (RegExp.test re (Entity.text d) = true
           ∧ Spec.window_start start ≤ Entity.date d < Spec.window_end end_)) →
  EntitiesDB.getArticleIdsForEntity entity start end_ st
  = Some (JS.Crashed JS.TypeError).
Proof.
  intros Hre Hnone. unfold EntitiesDB.getArticleIdsForEntity. rewrite Hre.
  rewrite ids_pipeline_nil; [done|].
  destruct (EntitiesDB.ids_matched _ _ _ _) as [|d ds] eqn:Hm; [done|].
  assert (Hd : d ∈ EntitiesDB.ids_matched re (Spec.window_start start)
                 (Spec.window_end end_) (entities st))
    by (unfold Spec.window_start, Spec.window_end; rewrite Hm; apply list_elem_of_here).
  apply ids_matched_elem in Hd as (Hst & Ht & Hw). by destruct (Hnone d Hst).
Qed.

(** When it resolves, the value is the list of the article ids of the
    matched mentions of one text, in the spelling of that text. *)
Lemma getArticleIdsForEntity_Resolved (entity : string) (start end_ : option Z)
    (st : store) (ids : list string) :
  EntitiesDB.getArticleIdsForEntity entity start end_ st = Some (JS.Resolved ids) →
  ∃ re text,
    RegExp.compile (EntitiesDB.entity_pattern entity) = Some re
    ∧ ids ≠ []
    ∧ ids = Entity.article_id <$>
              filter (λ d, Entity.text d = text)
                (EntitiesDB.ids_matched re (Spec.window_start start)
                   (Spec.window_end end_) (entities st)).
Proof.
  unfold EntitiesDB.getArticleIdsForEntity, Spec.window_start, Spec.window_end.
  destruct (RegExp.compile _) as [re|]; [|done].
  unfold EntitiesDB.ids_pipeline. cbv zeta.
  set (matched := EntitiesDB.ids_matched _ _ _ _).
  destruct (map_to_list _) as [|[k v] kvs] eqn:Hl; simpl; [done|].
  intros [= <-]. exists re, k. split; [done|].
  assert (Hk : Mongo.group Entity.text Mongo.push_step matched !! k = Some v).
  { apply elem_of_map_to_list. rewrite Hl. apply list_elem_of_here. }
  rewrite group_lookup, push_fold in Hk.
  destruct (filter _ matched) as [|d ds] eqn:Hf; [done|].
  injection Hk as <-. split; [done|]. fold matched. by rewrite Hf.
Qed.

Lemma ids_pipeline_nil_iff (re : RegExp.t) (s e : Z) (coll : gmap string Entity.t) :
  EntitiesDB.ids_pipeline re s e coll = [] ↔ EntitiesDB.ids_matched re s e coll = [].
Proof.
  split; [|apply ids_pipeline_nil].
  unfold EntitiesDB.ids_pipeline.
  intros H%fmap_nil_inv%map_to_list_empty_iff. by apply group_empty in H.
Qed.

Lemma ids_resolve_of_hit
    (entity : string) (re : RegExp.t) (start end_ : option Z) (st : store) (d : Entity.t) :
  RegExp.compile (EntitiesDB.entity_pattern entity) = Some re →
  Spec.stored st d ∧ RegExp.test re (Entity.text d) = true
  ∧ Spec.window_start start ≤ Entity.date d < Spec.window_end end_ →
  ∃ ids, EntitiesDB.getArticleIdsForEntity entity start end_ st = Some (JS.Resolved ids).
Proof.
  intros Hre Hd. unfold EntitiesDB.getArticleIdsForEntity. rewrite Hre.
  fold (Spec.window_start start) (Spec.window_end end_).
  destruct (EntitiesDB.ids_pipeline re _ _ _) as [|g gs] eqn:Hp; [|by eexists].
  apply ids_pipeline_nil_iff in Hp. apply ids_matched_elem in Hd.
  rewrite Hp in Hd. by apply not_elem_of_nil in Hd.
Qed.

(** The ids the lookup resolves with are the article ids of the stored
    mentions that match in the window and carry the text of one of
    them. *)
Lemma ids_of_one_text
    (entity : string) (re : RegExp.t) (start end_ : option Z) (st : store)
    (ids : list string) :
  RegExp.compile (EntitiesDB.entity_pattern entity) = Some re →
  EntitiesDB.getArticleIdsForEntity entity start end_ st = Some (JS.Resolved ids) →
  let hit x :=
    Spec.stored st x ∧ RegExp.test re (Entity.text x) = true
    ∧ Spec.window_start start ≤ Entity.date x < Spec.window_end end_ in
  ∃ x, hit x
       ∧ ∀ i, i ∈ ids
              ↔ ∃ y, hit y ∧ Entity.text y = Entity.text x ∧ Entity.article_id y = i.
Proof.
  intros Hre (re' & t & Hre' & Hne & ->)%getArticleIdsForEntity_Resolved hit.
  rewrite Hre in Hre'. injection Hre' as <-.
  destruct (filter _ _) as [|x xs] eqn:Hf; [done|].
  assert (x ∈ filter (λ d, Entity.text d = t)
            (EntitiesDB.ids_matched re (Spec.window_start start)
               (Spec.window_end end_) (entities st))) as Hx
    by (rewrite Hf; apply list_elem_of_here).
  rewrite <- Hf. apply list_elem_of_filter in Hx as [Ht Hx].
  exists x. split; [by apply ids_matched_elem in Hx|].
  intros i. rewrite list_elem_of_fmap. split.
  - intros (y & -> & [Hy Hym]%list_elem_of_filter). exists y.
    split; [by apply ids_matched_elem in Hym|]. split; [congruence|done].
  - intros (y & Hy & Hyx & <-). exists y. split; [done|].
    apply list_elem_of_filter. split; [congruence|]. by apply ids_matched_elem.
Qed.

(** C1 does not hold of the code: with no stored mention matching the
    entity in the window (an empty collection, or only mentions of other
    entities) the result of the grouping is empty and the callback throws
    a [TypeError] while reading [res[0].value]; the promise is not
    resolved with an empty list. *)
Theorem getArticleIdsForEntity_crashes_without_match :
  EntitiesDB.getArticleIdsForEntity "obama" None None (Store ∅ ∅)
  = Some (JS.Crashed JS.TypeError)
  ∧ EntitiesDB.getArticleIdsForEntity "obama" None None
      (Store ∅ {[ "clintona1"%string := Entity.mk "clintona1" "a1" 1000 "clinton" 2 0%float ]})
    = Some (JS.Crashed JS.TypeError)
  ∧ EntitiesDB.getArticleIdsForEntity "clinton" (Some 2000) None
      (Store ∅ {[ "clintona1"%string := Entity.mk "clintona1" "a1" 1000 "clinton" 2 0%float ]})
    = Some (JS.Crashed JS.TypeError).
Proof. vm_compute. repeat split; reflexivity. Qed.

(** Only the first group is read: with "IBM" stored for one article and
    "ibm" for another, both match "ibm" and a single article id comes
    back. *)
Example getArticleIdsForEntity_first_group_only :
  let st := Store ∅ (list_to_map
    [("IBMa1"%string, Entity.mk "IBMa1" "a1" 1000 "IBM" 3 0.5%float);
     ("ibma2"%string, Entity.mk "ibma2" "a2" 2000 "ibm" 5 0.25%float)]) in
  ∃ id, EntitiesDB.getArticleIdsForEntity "ibm" None None st
        = Some (JS.Resolved [id]).
Proof. eexists. vm_compute. reflexivity. Qed.

(** C7 does not hold of the code for every entity text: the text is put
    into the pattern as it is, so a dot in it stands for any character
    and a bar splits it into alternatives that are anchored at one end
    only.  "U.S" finds a mention of "UPS", and "bank|x" finds a mention
    of "bankrupt". *)
Theorem getArticleIdsForEntity_reads_entity_as_pattern :
  EntitiesDB.getArticleIdsForEntity "U.S" None None
    (Store ∅ {[ "UPSa1"%string := Entity.mk "UPSa1" "a1" 1000 "UPS" 2 0%float ]})
  = Some (JS.Resolved ["a1"%string])
  ∧ ¬ Text.eq_ignore_case "UPS" "U.S"
  ∧ EntitiesDB.getArticleIdsForEntity "bank|x" None None
      (Store ∅ {[ "bankrupta2"%string := Entity.mk "bankrupta2" "a2" 1000 "bankrupt" 1 0%float ]})
    = Some (JS.Resolved ["a2"%string])
  ∧ ¬ Text.eq_ignore_case "bankrupt" "bank|x".
Proof.
  split; [vm_compute; reflexivity|]. split; [by vm_compute|].
  split; [vm_compute; reflexivity|]. by vm_compute.
Qed.

(** ** The window and the defaults *)

(** C6. Both queries work on the stored mentions whose date [x] satisfies
    [start ≤ x < end], the bounds being the arguments when they are given
    (and, for [end], not zero).
    - [aggregateEntities]: the value of every row is the sum of the counts
      of the mentions of its text dated in [start ≤ x < end]; the result
      is empty exactly when no stored mention is dated so.  A stored
      mention dated exactly at the start of a non-empty window makes the
      result non-empty and, unless the limit cut the result, is counted
      in the row of its text; when all stored mentions are dated exactly
      at the end, the result is empty.
    - [getArticleIdsForEntity]: the ids are the article ids of the
      matching mentions of one text dated in [start ≤ x < end].  A stored
      matching mention dated exactly at the start makes the lookup
      resolve, with its article id when no other spelling matches; when
      all stored matching mentions are dated outside, for one at the
      end, the lookup finds nothing and ends in the [TypeError]. *)
Theorem queries_use_half_open_window
    (start end_ : option Z) (limit : option nat) (entity : string)
    (re : RegExp.t) (st : store) (d : Entity.t) :
  let s := Spec.window_start start in
  let e := Spec.window_end end_ in
  let window := filter (λ x, s ≤ Entity.date x < e) (Mongo.docs (entities st)) in
  let mentions (k : string) :=
    filter (λ x, Spec.same_text (Entity.text x) k) window in
  let hit x :=
    Spec.stored st x ∧ RegExp.test re (Entity.text x) = true
    ∧ s ≤ Entity.date x < e in
  (∀ v, start = Some v → s = v)
  ∧ (∀ v, end_ = Some v → v ≠ 0 → e = v)
  ∧ (∃ rows,
       EntitiesDB.aggregateEntities start end_ limit st = JS.Resolved rows
       ∧ (∀ g, g ∈ rows → Group.value g = Spec.total_count (mentions (Group._id g)))
       ∧ (rows = [] ↔ ∀ x, Spec.stored st x → ¬ (s ≤ Entity.date x < e))
       ∧ (Spec.stored st d → Entity.date d = s → s < e →
            rows ≠ []
            ∧ (length rows = Spec.group_limit limit
               ∨ ∃ g rest,
                   g ∈ rows
                   ∧ Spec.same_text (Entity.text d) (Group._id g)
                   ∧ mentions (Group._id g) ≡ₚ d :: rest
                   ∧ Group.value g = Entity.count d + Spec.total_count rest))
       ∧ ((∀ x, Spec.stored st x → Entity.date x = e) → rows = []))
  ∧ (RegExp.compile (EntitiesDB.entity_pattern entity) = Some re →
     (∀ ids,
        EntitiesDB.getArticleIdsForEntity entity start end_ st
          = Some (JS.Resolved ids) →
        ∃ x, hit x
             ∧ ∀ i, i ∈ ids
                    ↔ ∃ y, hit y ∧ Entity.text y = Entity.text x
                           ∧ Entity.article_id y = i)
     ∧ (Spec.stored st d → RegExp.test re (Entity.text d) = true →
        Entity.date d = s → s < e →
        ∃ ids,
          EntitiesDB.getArticleIdsForEntity entity start end_ st
            = Some (JS.Resolved ids)
          ∧ ((∀ y, hit y → Entity.text y = Entity.text d) →
             Entity.article_id d ∈ ids))
     ∧ ((∀ x, Spec.stored st x → RegExp.test re (Entity.text x) = true →
              Entity.date x < s ∨ e ≤ Entity.date x) →
        EntitiesDB.getArticleIdsForEntity entity start end_ st
          = Some (JS.Crashed JS.TypeError))).
Proof.
  intros s e window mentions hit.
  split; [intros v ->; unfold s, Spec.window_start; by destruct v|].
  split; [intros v -> Hv; unfold e, Spec.window_end; by destruct v|].
  split.
  - destruct (aggregateEntities_rows start end_ limit st)
      as (rows & Hres & _ & _ & _ & Hrow & Hcov & _ & Hnil).
    fold s e in Hrow, Hcov, Hnil. fold window in Hrow, Hcov. fold mentions in Hrow.
    exists rows. split; [done|].
    split; [intros g Hg; by destruct (Hrow g Hg) as (_ & _ & Hv & _)|].
    destruct Hnil as [Hn1 Hn2].
    split; [exact (conj Hn1 Hn2)|]. split.
    + intros Hst Hd Hlt.
      assert (Hne : rows ≠ []).
      { intros Hr. apply (Hn1 Hr d Hst). lia. }
      split; [done|].
      destruct Hcov as [Hfull|Hcov]; [by left|right].
      assert (Hw : d ∈ window).
      { apply window_elem. split; [done|]. rewrite Hd.
        split; [apply Z.le_refl | exact Hlt]. }
      destruct (Hcov d Hw) as (g & Hg & Hsame).
      assert (Hm : d ∈ mentions (Group._id g)) by (by apply list_elem_of_filter).
      apply elem_of_Permutation in Hm as [rest Hrest].
      exists g, rest. split; [done|]. split; [done|]. split; [done|].
      destruct (Hrow g Hg) as (_ & _ & Hv & _).
      rewrite Hv. exact (total_count_Permutation _ _ Hrest).
    + intros Hall. apply Hn2. intros x Hx. specialize (Hall x Hx). lia.
  - intros Hre. split; [|split].
    + intros ids Hids. exact (ids_of_one_text entity re start end_ st ids Hre Hids).
    + intros Hst Ht Hd Hlt.
      assert (Hhit : hit d) by (split; [done|split; [done|lia]]).
      destruct (ids_resolve_of_hit entity re start end_ st d Hre Hhit) as [ids Hids].
      exists ids. split; [done|]. intros Hone.
      destruct (ids_of_one_text entity re start end_ st ids Hre Hids) as (x & Hx & Hiff).
      apply Hiff. exists d. split; [done|]. split; [|done]. symmetry. by apply Hone.
    + intros Hout. apply (getArticleIdsForEntity_no_match entity re); [done|].
      intros x Hx [Ht Hw]. destruct (Hout x Hx Ht); fold s e in Hw; lia.
Qed.

(** The window [1000, 2000) over a store that holds a mention dated 1000
    and a mention dated 2000: only the first is counted and found. *)
Lemma queries_use_half_open_window_witness :
  let at_start := Entity.mk "IBMa1" "a1" 1000 "IBM" 3 0.5%float in
  let at_end := Entity.mk "IBMa2" "a2" 2000 "IBM" 5 0.25%float in
  let st := Store ∅ (list_to_map [("IBMa1"%string, at_start); ("IBMa2"%string, at_end)]) in
  (∃ rows, EntitiesDB.aggregateEntities (Some 1000) (Some 2000) None st
           = JS.Resolved rows ∧ rows ≠ [])
  ∧ (∃ ids, EntitiesDB.getArticleIdsForEntity "ibm" (Some 1000) (Some 2000) st
            = Some (JS.Resolved ids)).
Proof.
  intros at_start at_end st.
  pose proof (queries_use_half_open_window (Some 1000) (Some 2000) None "ibm"
                [[RegExp.Bol; RegExp.Lit "i"; RegExp.Lit "b"; RegExp.Lit "m";
                  RegExp.Eol]] st at_start) as (_ & _ & Hagg & Hids).
  assert (Hst : Spec.stored st at_start).
  { exists "IBMa1"%string. vm_compute. reflexivity. }
  split.
  - destruct Hagg as (rows & Hres & _ & _ & Hin & _).
    exists rows. split; [exact Hres|].
    destruct Hin as [Hne _]; [exact Hst | reflexivity | reflexivity | exact Hne].
  - destruct (Hids eq_refl) as (_ & Hin & _).
    destruct Hin as (ids & Hres & _);
      [exact Hst | reflexivity | reflexivity | reflexivity |].
    exists ids. exact Hres.
Defined.

(** The same store, evaluated: the mention dated 2000 is neither counted
    nor found, and with the window [2000, 3000) it is the one that is. *)
Example queries_on_the_boundary :
  let at_start := Entity.mk "IBMa1" "a1" 1000 "IBM" 3 0.5%float in
  let at_end := Entity.mk "IBMa2" "a2" 2000 "IBM" 5 0.25%float in
  let st := Store ∅ (list_to_map [("IBMa1"%string, at_start); ("IBMa2"%string, at_end)]) in
  EntitiesDB.aggregateEntities (Some 1000) (Some 2000) None st
    = JS.Resolved [Group.mk "ibm" 3 0.5%float]
  ∧ EntitiesDB.getArticleIdsForEntity "ibm" (Some 1000) (Some 2000) st
    = Some (JS.Resolved ["a1"%string])
  ∧ EntitiesDB.aggregateEntities (Some 2000) (Some 3000) None st
    = JS.Resolved [Group.mk "ibm" 5 0.25%float]
  ∧ EntitiesDB.getArticleIdsForEntity "ibm" (Some 2000) (Some 3000) st
    = Some (JS.Resolved ["a2"%string])
  ∧ EntitiesDB.aggregateEntities (Some 1001) (Some 2000) None st = JS.Resolved []
  ∧ EntitiesDB.getArticleIdsForEntity "ibm" (Some 1001) (Some 2000) st
    = Some (JS.Crashed JS.TypeError).
Proof. vm_compute. repeat split; reflexivity. Qed.

(** C10. A falsy [start], [end] or [limit] is replaced by its default:
    passing [0] is the same as passing nothing, which is the same as
    passing the default ([0], [9999999999999] and [100]), in
    [aggregateEntities] and, for [start] and [end], in
    [getArticleIdsForEntity].
    - With a limit of [0], [aggregateEntities] resolves with up to 100
      rows of distinct keys: with 100 rows, or else with a row for every
      stored mention dated inside the window; the result is empty only
      when no stored mention is dated inside the window.
    - With an end of [0], the window of [aggregateEntities] ends before
      9999999999999: the rows count the mentions dated from the start up
      to, and not including, that instant, and the result is empty exactly
      when there is none; and [getArticleIdsForEntity] resolves exactly
      when a stored matching mention is dated so.
    - With a start of [0], the window begins at the epoch. *)
Theorem falsy_arguments_take_defaults
    (start end_ : option Z) (limit : option nat) (entity : string) (st : store) :
  let window s e := filter (λ x, s ≤ Entity.date x < e) (Mongo.docs (entities st)) in
  let mentions s e (k : string) :=
    filter (λ x, Spec.same_text (Entity.text x) k) (window s e) in
  (EntitiesDB.aggregateEntities start end_ (Some 0%nat) st
     = EntitiesDB.aggregateEntities start end_ None st
   ∧ EntitiesDB.aggregateEntities start end_ None st
     = EntitiesDB.aggregateEntities start end_ (Some 100%nat) st)
  ∧ (EntitiesDB.aggregateEntities start (Some 0) limit st
       = EntitiesDB.aggregateEntities start None limit st
     ∧ EntitiesDB.aggregateEntities start None limit st
       = EntitiesDB.aggregateEntities start (Some 9999999999999) limit st)
  ∧ EntitiesDB.aggregateEntities (Some 0) end_ limit st
      = EntitiesDB.aggregateEntities None end_ limit st
  ∧ (EntitiesDB.getArticleIdsForEntity entity start (Some 0) st
       = EntitiesDB.getArticleIdsForEntity entity start None st
     ∧ EntitiesDB.getArticleIdsForEntity entity start None st
       = EntitiesDB.getArticleIdsForEntity entity start (Some 9999999999999) st)
  ∧ EntitiesDB.getArticleIdsForEntity entity (Some 0) end_ st
      = EntitiesDB.getArticleIdsForEntity entity None end_ st
  ∧ (∃ rows,
       EntitiesDB.aggregateEntities start end_ (Some 0%nat) st = JS.Resolved rows
       ∧ (length rows ≤ 100)%nat
       ∧ NoDup (Group._id <$> rows)
       ∧ (length rows = 100%nat
          ∨ ∀ x, x ∈ window (Spec.window_start start) (Spec.window_end end_) →
              ∃ g, g ∈ rows ∧ Spec.same_text (Entity.text x) (Group._id g))
       ∧ (rows = []
          ↔ ∀ x, Spec.stored st x →
              ¬ (Spec.window_start start ≤ Entity.date x < Spec.window_end end_)))
  ∧ (∃ rows,
       EntitiesDB.aggregateEntities start (Some 0) limit st = JS.Resolved rows
       ∧ (∀ g, g ∈ rows →
            Group.value g
            = Spec.total_count
                (mentions (Spec.window_start start) 9999999999999 (Group._id g)))
       ∧ (rows = []
          ↔ ∀ x, Spec.stored st x →
              ¬ (Spec.window_start start ≤ Entity.date x < 9999999999999)))
  ∧ (∃ rows,
       EntitiesDB.aggregateEntities (Some 0) end_ limit st = JS.Resolved rows
       ∧ (∀ g, g ∈ rows →
            Group.value g
            = Spec.total_count (mentions 0 (Spec.window_end end_) (Group._id g)))
       ∧ (rows = []
          ↔ ∀ x, Spec.stored st x →
              ¬ (0 ≤ Entity.date x < Spec.window_end end_)))
  ∧ (∀ re, RegExp.compile (EntitiesDB.entity_pattern entity) = Some re →
       ((∃ ids, EntitiesDB.getArticleIdsForEntity entity start (Some 0) st
                = Some (JS.Resolved ids))
        ↔ ∃ x, Spec.stored st x ∧ RegExp.test re (Entity.text x) = true
               ∧ Spec.window_start start ≤ Entity.date x < 9999999999999)
       ∧ ((∃ ids, EntitiesDB.getArticleIdsForEntity entity (Some 0) end_ st
                  = Some (JS.Resolved ids))
          ↔ ∃ x, Spec.stored st x ∧ RegExp.test re (Entity.text x) = true
                 ∧ 0 ≤ Entity.date x < Spec.window_end end_)).
Proof.
  intros window mentions.
  split; [split; reflexivity|].
  split; [split; reflexivity|].
  split; [reflexivity|].
  split; [split; reflexivity|].
  split; [reflexivity|].
  split.
  { destruct (aggregateEntities_rows start end_ (Some 0%nat) st)
      as (rows & Hres & Hlen & _ & Hnd & _ & Hcov & _ & Hnil).
    exists rows. split; [done|]. split; [exact Hlen|]. split; [done|].
    split; [exact Hcov | exact Hnil]. }
  split.
  { destruct (aggregateEntities_rows start (Some 0) limit st)
      as (rows & Hres & _ & _ & _ & Hrow & _ & _ & Hnil).
    exists rows. split; [done|]. split; [|exact Hnil].
    intros g Hg. by destruct (Hrow g Hg) as (_ & _ & Hv & _). }
  split.
  { destruct (aggregateEntities_rows (Some 0) end_ limit st)
      as (rows & Hres & _ & _ & _ & Hrow & _ & _ & Hnil).
    exists rows. split; [done|]. split; [|exact Hnil].
    intros g Hg. by destruct (Hrow g Hg) as (_ & _ & Hv & _). }
  intros re Hre. split.
  - split.
    + intros [ids Hids].
      destruct (ids_of_one_text entity re start (Some 0) st ids Hre Hids)
        as (x & Hx & _). by exists x.
    + intros [x Hx]. exact (ids_resolve_of_hit entity re start (Some 0) st x Hre Hx).
  - split.
    + intros [ids Hids].
      destruct (ids_of_one_text entity re (Some 0) end_ st ids Hre Hids)
        as (x & Hx & _). by exists x.
    + intros [x Hx]. exact (ids_resolve_of_hit entity re (Some 0) end_ st x Hre Hx).
Qed.

(** A limit of [0] does not empty the result, and an end of [0] does not
    empty the window. *)
Example aggregateEntities_limit_zero :
  EntitiesDB.aggregateEntities None None (Some 0%nat)
    (Store ∅ {[ "aax"%string := Entity.mk "aax" "x" 10 "aa" 50 0%float ]})
  = JS.Resolved [Group.mk "aa" 50 0%float]
  ∧ EntitiesDB.aggregateEntities None (Some 0) None
      (Store ∅ {[ "aax"%string := Entity.mk "aax" "x" 10 "aa" 50 0%float ]})
    = JS.Resolved [Group.mk "aa" 50 0%float]
  ∧ EntitiesDB.getArticleIdsForEntity "aa" (Some 0) (Some 0)
      (Store ∅ {[ "aax"%string := Entity.mk "aax" "x" 10 "aa" 50 0%float ]})
    = Some (JS.Resolved ["x"%string]).
Proof. vm_compute. repeat split; reflexivity. Qed.

(** ** Retention *)

Lemma remove_lookup {A} (cond : A → Prop) `{∀ x, Decision (cond x)}
    (coll : gmap string A) (k : string) (x : A) :
  Mongo.remove cond coll !! k = Some x ↔ coll !! k = Some x ∧ ¬ cond x.
Proof. unfold Mongo.remove. by rewrite map_lookup_filter_Some. Qed.

Lemma remove_lookup_None {A} (cond : A → Prop) `{∀ x, Decision (cond x)}
    (coll : gmap string A) (k : string) (x : A) :
  coll !! k = Some x → cond x → Mongo.remove cond coll !! k = None.
Proof.
  intros Hk Hc. unfold Mongo.remove. apply map_lookup_filter_None. right.
  intros y Hy. rewrite Hk in Hy. injection Hy as <-. simpl. tauto.
Qed.

(** When the local midnight round-trips through the zone and the cutoff
    falls on a whole second, [unix()*1000] loses nothing: the cutoff is
    the instant of the local midnight of the current day moved back by
    thirty calendar days. *)
Lemma prune_date_zone (z : Moment.zone) (v : Z) :
  let now := Moment.mk v z in
  let midnight := Moment.local now - Moment.local now mod Moment.ms_per_day in
  Moment.local_of z (Moment.utc_of z midnight) = midnight →
  Moment.utc_of z (midnight - 30 * Moment.ms_per_day) mod 1000 = 0 →
  EntitiesDB.prune_date now = Moment.utc_of z (midnight - 30 * Moment.ms_per_day).
Proof.
  intros now midnight Hmid Hsec.
  unfold EntitiesDB.prune_date, Moment.unix, Moment.subtract_day, Moment.startOf_day.
  unfold midnight, now, Moment.local in *. cbn [Moment.valueOf Moment.tz] in *.
  rewrite Hmid.
  set (c := Moment.utc_of z (_ - 30 * Moment.ms_per_day)) in *.
  pose proof (Z.div_mod c 1000 ltac:(lia)). lia.
Qed.

(** In a zone that keeps one offset, the start of the day is the latest
    local midnight that is not after the moment. *)
Lemma startOf_day_spec (v off : Z) :
  let now := Moment.mk v (Moment.fixed off) in
  let sod := Moment.startOf_day now in
  Moment.local sod mod Moment.ms_per_day = 0
  ∧ Moment.valueOf sod ≤ Moment.valueOf now < Moment.valueOf sod + Moment.ms_per_day.
Proof.
  unfold Moment.startOf_day, Moment.local, Moment.ms_per_day, Moment.fixed. simpl.
  set (l := v + off * 60000).
  pose proof (Z.mod_pos_bound l 86400000 ltac:(lia)) as Hb.
  split; [|lia].
  replace (l - l mod 86400000 - off * 60000 + off * 60000)
    with (l - l mod 86400000) by lia.
  rewrite Zminus_mod_idemp_r, Z.sub_diag. reflexivity.
Qed.

(** There the seconds are whole at a local midnight, and thirty calendar
    days are thirty times 24 hours. *)
Lemma prune_date_cutoff (v off : Z) :
  let now := Moment.mk v (Moment.fixed off) in
  EntitiesDB.prune_date now
  = Moment.valueOf (Moment.startOf_day now) - 30 * Moment.ms_per_day.
Proof.
  intros now.
  pose proof (prune_date_zone (Moment.fixed off) v) as Hz.
  cbv zeta in Hz. fold now in Hz.
  unfold Moment.startOf_day, Moment.local, Moment.ms_per_day, Moment.fixed in *.
  simpl in *.
  set (l := v + off * 60000) in *.
  assert (Hl : ∃ q, l - l mod 86400000 = q * 86400000).
  { exists (l / 86400000). pose proof (Z.div_mod l 86400000 ltac:(lia)). lia. }
  destruct Hl as [q Hq].
  rewrite Hz; [lia|lia|].
  rewrite Hq.
  replace (q * 86400000 - 30 * 86400000 - off * 60000)
    with ((q * 86400 - 30 * 86400 - off * 60) * 1000) by lia.
  apply Z.mod_mul. lia.
Qed.




(** Articles and mentions dated 31 and 29 days before now, in a zone that
    keeps its offset: only the former go. *)
Example pruneOlderThan30d_31_29 :
  let now := Moment.mk 1446552000000 (Moment.fixed (-300)) in
  let d31 := 1446552000000 - 31 * 86400000 in
  let d29 := 1446552000000 - 29 * 86400000 in
  let st := Store
    (list_to_map [("a"%string, Article.mk "a" "old" d31 "u"); ("b"%string, Article.mk "b" "new" d29 "v")])
    (list_to_map [("IBMa"%string, Entity.mk "IBMa" "a" d31 "IBM" 1 0%float);
                  ("IBMb"%string, Entity.mk "IBMb" "b" d29 "IBM" 1 0%float)]) in
  Mongo.docs (articles (EntitiesDB.pruneOlderThan30d now st))
    = [Article.mk "b" "new" d29 "v"]
  ∧ Mongo.docs (entities (EntitiesDB.pruneOlderThan30d now st))
    = [Entity.mk "IBMb" "b" d29 "IBM" 1 0%float].
Proof. vm_compute. split; reflexivity. Qed.

(** C3, as amended. [pruneCharEntities] keeps exactly the mentions whose
    text is not one character long, and leaves the articles alone: no
    mention of text length 1 remains, every other mention does, the ones
    of empty text included. *)
Theorem pruneCharEntities_removes_length_one (st : store) :
  let st' := EntitiesDB.pruneCharEntities st in
  articles st' = articles st
  ∧ (∀ k e, entities st' !! k = Some e
            ↔ entities st !! k = Some e ∧ String.length (Entity.text e) ≠ 1%nat)
  ∧ (∀ e, Spec.stored st' e → String.length (Entity.text e) ≠ 1%nat).
Proof.
  intros st'. split; [reflexivity|].
  assert (Hk : ∀ k e, entities st' !! k = Some e
            ↔ entities st !! k = Some e ∧ String.length (Entity.text e) ≠ 1%nat).
  { intros k e. unfold st', EntitiesDB.pruneCharEntities. simpl.
    by rewrite remove_lookup. }
  split; [exact Hk|].
  intros e [k He]. by apply Hk in He as [_ ?].
Qed.

Lemma pruneCharEntities_removes_length_one_witness :
  let ibm := Entity.mk "IBMa" "a" 10 "IBM" 2 0%float in
  let st := Store ∅ (list_to_map
    [("xa"%string, Entity.mk "xa" "a" 10 "x" 1 0%float); ("IBMa"%string, ibm)]) in
  entities (EntitiesDB.pruneCharEntities st) !! "IBMa"%string = Some ibm
  ∧ entities (EntitiesDB.pruneCharEntities st) !! "xa"%string = None.
Proof.
  intros ibm st.
  destruct (pruneCharEntities_removes_length_one st) as (_ & Hk & _).
  split.
  - apply Hk. split; [reflexivity | simpl; lia].
  - destruct (entities (EntitiesDB.pruneCharEntities st) !! "xa"%string) as [e|] eqn:He;
      [|reflexivity].
    apply Hk in He as [He Hlen]. injection He as <-. by destruct Hlen.
Defined.

(** C3, as stated, fails: a stored mention of empty text (length 0 ≤ 1)
    is still stored after [pruneCharEntities]. *)
Lemma pruneCharEntities_keeps_empty_text :
  let e := Entity.mk "a" "a" 10 "" 1 0%float in
  let st := Store ∅ {[ "a"%string := e ]} in
  ¬ (∀ e', Spec.stored (EntitiesDB.pruneCharEntities st) e' →
           ¬ (String.length (Entity.text e') ≤ 1)%nat).
Proof.
  intros e st Hall.
  apply (Hall e); [|simpl; lia].
  exists "a"%string. vm_compute. reflexivity.
Qed.

(** ** The adapter and ingestion *)

Lemma adapt_entity_fields (doc : Alchemy.doc) (e : Alchemy.entity) :
  Entity._id (EntitiesDB.adapt_entity doc e) = (Alchemy.text e ++ Alchemy.id doc)%string
  ∧ Entity.article_id (EntitiesDB.adapt_entity doc e) = Alchemy.id doc
  ∧ Entity.date (EntitiesDB.adapt_entity doc e) = Alchemy.timestamp doc * 1000
  ∧ Entity.text (EntitiesDB.adapt_entity doc e) = Alchemy.text e.
Proof. done. Qed.

(** What a call that returns a pair has gone through. *)
Lemma adapt_Some (doc : Alchemy.doc) (a : Article.t) (es : list Entity.t) :
  EntitiesDB._adaptFromAlchemyDoc doc = JS.Return (Some (a, es)) →
  ∃ u, EntitiesDB.enrichedUrl doc = Alchemy.UrlObject u
       ∧ a = EntitiesDB.adapt_article doc u
       ∧ es = filter EntitiesDB.long_text
                (EntitiesDB.adapt_entity doc <$> Alchemy.entities u)
       ∧ es ≠ [].
Proof.
  unfold EntitiesDB._adaptFromAlchemyDoc.
  destruct (EntitiesDB.enrichedUrl doc) as [|s|u]; [done| |].
  - by destruct (JS.truthy_string s).
  - cbv zeta. destruct (filter _ _) as [|m ms] eqn:Hf; [done|].
    intros [= <- <-]. exists u. by rewrite Hf.
Qed.

Lemma adapt_mentions_elem (doc : Alchemy.doc) (u : Alchemy.url_object) (m : Entity.t) :
  m ∈ filter EntitiesDB.long_text (EntitiesDB.adapt_entity doc <$> Alchemy.entities u)
  ↔ ∃ e, e ∈ Alchemy.entities u ∧ m = EntitiesDB.adapt_entity doc e
         ∧ (1 < String.length (Alchemy.text e))%nat.
Proof.
  rewrite list_elem_of_filter, list_elem_of_fmap. unfold EntitiesDB.long_text.
  split.
  - intros [Hlen (e & -> & He)]. by exists e.
  - intros (e & He & -> & Hlen). split; [done|]. by exists e.
Qed.

(** C2, as amended. The title, the url and the entities are read from
    the object under [doc.source.enriched.url].  When [source],
    [enriched] or that property is missing the adapter returns nothing;
    when it returns a pair, the article has the document id, the title
    and url of that object and the date [timestamp * 1000] milliseconds,
    every mention carries that same date, and it does return a pair as
    soon as one entity text is longer than one character. *)
Theorem _adaptFromAlchemyDoc_article (doc : Alchemy.doc) :
  (Alchemy.source doc = None →
   EntitiesDB._adaptFromAlchemyDoc doc = JS.Return None)
  ∧ (∀ src, Alchemy.source doc = Some src → Alchemy.enriched src = None →
     EntitiesDB._adaptFromAlchemyDoc doc = JS.Return None)
  ∧ (∀ src en, Alchemy.source doc = Some src → Alchemy.enriched src = Some en →
     Alchemy.enriched_url en = Alchemy.UrlAbsent →
     EntitiesDB._adaptFromAlchemyDoc doc = JS.Return None)
  ∧ (∀ src en u, Alchemy.source doc = Some src → Alchemy.enriched src = Some en →
     Alchemy.enriched_url en = Alchemy.UrlObject u →
     (∃ e, e ∈ Alchemy.entities u ∧ (1 < String.length (Alchemy.text e))%nat) →
     ∃ es, EntitiesDB._adaptFromAlchemyDoc doc
           = JS.Return (Some (Article.mk (Alchemy.id doc) (Alchemy.title u)
                                (Alchemy.timestamp doc * 1000) (Alchemy.url u), es))
           ∧ Forall (λ m, Entity.date m = Alchemy.timestamp doc * 1000) es)
  ∧ (∀ a es, EntitiesDB._adaptFromAlchemyDoc doc = JS.Return (Some (a, es)) →
     ∃ src en u, Alchemy.source doc = Some src ∧ Alchemy.enriched src = Some en
       ∧ Alchemy.enriched_url en = Alchemy.UrlObject u
       ∧ Article._id a = Alchemy.id doc
       ∧ Article.title a = Alchemy.title u
       ∧ Article.url a = Alchemy.url u
       ∧ Article.date a = Alchemy.timestamp doc * 1000
       ∧ Forall (λ m, Entity.date m = Article.date a) es).
Proof.
  assert (Hdates : ∀ u, Forall (λ m, Entity.date m = Alchemy.timestamp doc * 1000)
            (filter EntitiesDB.long_text
               (EntitiesDB.adapt_entity doc <$> Alchemy.entities u))).
  { intros u. apply Forall_forall. intros m Hm.
    apply adapt_mentions_elem in Hm as (e & _ & -> & _). done. }
  unfold EntitiesDB._adaptFromAlchemyDoc, EntitiesDB.enrichedUrl.
  split; [by intros ->|].
  split; [by intros src -> ->|].
  split; [by intros src en -> -> ->|].
  split.
  - intros src en u -> -> -> (e & He & Hlen). cbv zeta.
    destruct (filter _ _) as [|m ms] eqn:Hf.
    + assert (EntitiesDB.adapt_entity doc e ∈ filter EntitiesDB.long_text
                (EntitiesDB.adapt_entity doc <$> Alchemy.entities u)) as Hin
        by (apply adapt_mentions_elem; by exists e).
      rewrite Hf in Hin. by apply not_elem_of_nil in Hin.
    + eexists. split; [reflexivity|]. rewrite <- Hf. apply Hdates.
  - intros a es.
    destruct (Alchemy.source doc) as [src|]; [|done].
    destruct (Alchemy.enriched src) as [en|] eqn:Hen; [|done].
    destruct (Alchemy.enriched_url en) as [|s|u] eqn:Hu; [done| |].
    { by destruct (JS.truthy_string s). }
    cbv zeta. destruct (filter _ _) as [|m ms] eqn:Hf; [done|].
    intros [= <- <-]. exists src, en, u. repeat split; try done.
    rewrite <- Hf. apply Hdates.
Qed.

Lemma _adaptFromAlchemyDoc_article_witness :
  let u := {| Alchemy.title := "Title"; Alchemy.url := "http://example.org/a";
              Alchemy.entities :=
                [{| Alchemy.text := "IBM"; Alchemy.count := 3;
                    Alchemy.sentiment := {| Alchemy.score := 0.5%float |} |}] |} in
  let en := {| Alchemy.enriched_title := None;
               Alchemy.enriched_url := Alchemy.UrlObject u;
               Alchemy.enriched_entities := None |} in
  let src := {| Alchemy.enriched := Some en |} in
  let doc := {| Alchemy.id := "doc1"; Alchemy.timestamp := 1446552000;
                Alchemy.source := Some src |} in
  ∃ es, EntitiesDB._adaptFromAlchemyDoc doc
        = JS.Return (Some (Article.mk "doc1" "Title" (1446552000 * 1000)
                             "http://example.org/a", es))
        ∧ Forall (λ m, Entity.date m = 1446552000 * 1000) es.
Proof.
  intros u en src doc.
  refine (proj1 (proj2 (proj2 (proj2 (_adaptFromAlchemyDoc_article doc))))
            src en u eq_refl eq_refl eq_refl _).
  eexists. split; [apply list_elem_of_here | simpl; lia].
Defined.

(** C2, as stated, fails.  A document shaped as in section 6 of the
    specification holds the title, the url (a string) and the entities
    directly under [enriched]: the adapter throws on it instead of
    returning an article.  And a document of the shape the code reads,
    whose only entity has a one-character text, yields nothing although
    its enriched object is there. *)
Lemma _adaptFromAlchemyDoc_section6_shape_throws :
  let ents := [{| Alchemy.text := "IBM"; Alchemy.count := 3;
                  Alchemy.sentiment := {| Alchemy.score := 0.5%float |} |}] in
  let doc6 := {| Alchemy.id := "doc1"; Alchemy.timestamp := 1446552000;
                 Alchemy.source := Some {| Alchemy.enriched := Some
                   {| Alchemy.enriched_title := Some "Title"%string;
                      Alchemy.enriched_url := Alchemy.UrlString "http://example.org/a";
                      Alchemy.enriched_entities := Some ents |} |} |} in
  let doc2 := {| Alchemy.id := "doc2"; Alchemy.timestamp := 1446552000;
                 Alchemy.source := Some {| Alchemy.enriched := Some
                   {| Alchemy.enriched_title := None;
                      Alchemy.enriched_url := Alchemy.UrlObject
                        {| Alchemy.title := "Title"; Alchemy.url := "http://example.org/b";
                           Alchemy.entities :=
                             [{| Alchemy.text := "x"; Alchemy.count := 1;
                                 Alchemy.sentiment := {| Alchemy.score := 0%float |} |}] |};
                      Alchemy.enriched_entities := None |} |} |} in
  EntitiesDB._adaptFromAlchemyDoc doc6 = JS.Throw JS.TypeError
  ∧ EntitiesDB._adaptFromAlchemyDoc doc2 = JS.Return None
  ∧ ¬ (∀ doc, (∃ src en, Alchemy.source doc = Some src
                         ∧ Alchemy.enriched src = Some en) →
              ∃ a es, EntitiesDB._adaptFromAlchemyDoc doc = JS.Return (Some (a, es))
                      ∧ Article._id a = Alchemy.id doc).
Proof.
  intros ents doc6 doc2.
  split; [reflexivity|]. split; [reflexivity|].
  intros Hall. destruct (Hall doc6) as (a & es & Hret & _).
  - by eexists _, _.
  - discriminate Hret.
Qed.

Lemma foldl_upsert_entity_articles (es : list Entity.t) (st : store) :
  articles (foldl EntitiesDB.upsert_entity st es) = articles st.
Proof. revert st. induction es as [|e es IH]; intros st; simpl; [done|]. by rewrite IH. Qed.

(** After the upserts of [es], the record under a key is the last one of
    [es] with that [_id], or the former record when there is none. *)
Lemma foldl_upsert_entity_lookup (es : list Entity.t) (st : store) (k : string) :
  entities (foldl EntitiesDB.upsert_entity st es) !! k
  = match last (filter (λ e, Entity._id e = k) es) with
    | Some e => Some e
    | None => entities st !! k
    end.
Proof.
  induction es as [|e es IH] using rev_ind; [done|].
  rewrite foldl_snoc, filter_app. simpl.
  unfold Mongo.findByIdAndUpdate.
  destruct (decide (Entity._id e = k)) as [Hk|Hk].
  - rewrite filter_cons_True by done. rewrite filter_nil, last_snoc.
    rewrite Hk. apply lookup_insert_eq.
  - rewrite filter_cons_False by done. rewrite filter_nil, app_nil_r.
    rewrite lookup_insert_ne by done. apply IH.
Qed.

Lemma upload_doc_Return (doc : Alchemy.doc) (st st' : store) :
  EntitiesDB.upload_doc doc st = JS.Return st' →
  (EntitiesDB._adaptFromAlchemyDoc doc = JS.Return None ∧ st' = st)
  ∨ ∃ a es, EntitiesDB._adaptFromAlchemyDoc doc = JS.Return (Some (a, es))
            ∧ st' = foldl EntitiesDB.upsert_entity (EntitiesDB.upsert_article a st) es.
Proof.
  unfold EntitiesDB.upload_doc.
  destruct (EntitiesDB._adaptFromAlchemyDoc doc) as [[[a es]|]|err]; [| |done].
  - intros [= <-]. right. by exists a, es.
  - intros [= <-]. by left.
Qed.

(** The mentions a document adds or replaces have a long text. *)
Lemma upload_doc_entities (doc : Alchemy.doc) (st st' : store) (k : string) (e : Entity.t) :
  EntitiesDB.upload_doc doc st = JS.Return st' →
  entities st' !! k = Some e →
  entities st !! k = Some e ∨ EntitiesDB.long_text e.
Proof.
  intros [[_ ->]|(a & es & Ha & ->)]%upload_doc_Return; [by left|].
  rewrite foldl_upsert_entity_lookup.
  destruct (last _) as [e'|] eqn:Hlast; [|by left].
  intros [= ->]. right.
  apply last_Some_elem_of, list_elem_of_filter in Hlast as [_ Hin].
  apply adapt_Some in Ha as (u & _ & _ & -> & _).
  by apply list_elem_of_filter in Hin as [? _].
Qed.

(** The article a document adds or replaces is the one adapted from it. *)
Lemma upload_doc_articles (doc : Alchemy.doc) (st st' : store) (k : string) (a : Article.t) :
  EntitiesDB.upload_doc doc st = JS.Return st' →
  articles st' !! k = Some a →
  articles st !! k = Some a
  ∨ ∃ es, EntitiesDB._adaptFromAlchemyDoc doc = JS.Return (Some (a, es)).
Proof.
  intros [[_ ->]|(a' & es & Ha & ->)]%upload_doc_Return; [by left|].
  rewrite foldl_upsert_entity_articles. simpl. unfold Mongo.findByIdAndUpdate.
  destruct (decide (Article._id a' = k)) as [<-|Hk].
  - rewrite lookup_insert_eq. intros [= <-]. right. by exists es.
  - rewrite lookup_insert_ne by done. by left.
Qed.

Lemma uploadArticlesFromDocs_entities (docs : list (option Alchemy.doc)) (st : store)
    (k : string) (e : Entity.t) :
  entities (EntitiesDB.uploadArticlesFromDocs docs st).1 !! k = Some e →
  entities st !! k = Some e ∨ EntitiesDB.long_text e.
Proof.
  revert st. induction docs as [|[doc|] docs IH]; intros st; simpl; [by left| |by apply IH].
  destruct (EntitiesDB.upload_doc doc st) as [st1|err] eqn:Hup; [|by left].
  intros [He|He]%IH; [|by right].
  by apply (upload_doc_entities doc st st1).
Qed.

Lemma uploadArticlesFromDocs_articles (docs : list (option Alchemy.doc)) (st : store)
    (k : string) (a : Article.t) :
  articles (EntitiesDB.uploadArticlesFromDocs docs st).1 !! k = Some a →
  articles st !! k = Some a
  ∨ ∃ doc es, Some doc ∈ docs
              ∧ EntitiesDB._adaptFromAlchemyDoc doc = JS.Return (Some (a, es)).
Proof.
  revert st. induction docs as [|[doc|] docs IH]; intros st; simpl; [by left| |].
  - destruct (EntitiesDB.upload_doc doc st) as [st1|err] eqn:Hup; [|by left].
    intros [Ha|(doc' & es & Hin & Had)]%IH.
    + destruct (upload_doc_articles doc st st1 k a Hup Ha) as [?|[es Had]]; [by left|].
      right. exists doc, es. split; [apply list_elem_of_here|done].
    + right. exists doc', es. split; [by apply list_elem_of_further|done].
  - intros [Ha|(doc' & es & Hin & Had)]%IH; [by left|].
    right. exists doc', es. split; [by apply list_elem_of_further|done].
Qed.

(** The last mention of an adapted document is in the store once the
    document is uploaded. *)
Lemma upload_doc_last_mention (a : Article.t) (es : list Entity.t) (e : Entity.t) (st : store) :
  last es = Some e →
  entities (foldl EntitiesDB.upsert_entity (EntitiesDB.upsert_article a st) es)
    !! Entity._id e = Some e.
Proof.
  intros Hlast. rewrite foldl_upsert_entity_lookup.
  apply last_Some in Hlast as [es' ->].
  rewrite filter_app, filter_cons_True by done.
  by rewrite filter_nil, last_snoc.
Qed.

Lemma store_eq (s t : store) :
  articles s = articles t → entities s = entities t → s = t.
Proof. destruct s, t. simpl. by intros -> ->. Qed.

(** Uploading a document a second time changes nothing. *)
Lemma upload_doc_idempotent (doc : Alchemy.doc) (st st1 : store) :
  EntitiesDB.upload_doc doc st = JS.Return st1 →
  EntitiesDB.upload_doc doc st1 = JS.Return st1.
Proof.
  intros Hup. destruct (upload_doc_Return doc st st1 Hup) as [[Ha ->]|(a & es & Ha & Hst1)].
  { exact Hup. }
  unfold EntitiesDB.upload_doc. rewrite Ha. f_equal.
  apply store_eq.
  - subst st1. rewrite !foldl_upsert_entity_articles. simpl.
    rewrite foldl_upsert_entity_articles. simpl.
    unfold Mongo.findByIdAndUpdate. apply insert_insert_eq.
  - subst st1. apply map_eq. intros k.
    rewrite foldl_upsert_entity_lookup. simpl.
    rewrite foldl_upsert_entity_lookup.
    by destruct (last _).
Qed.

(** C8. The adapter keeps exactly the entities whose text is longer than
    one character and returns nothing when none is left.  So an upload
    never adds a mention whose text has length at most 1, whatever else
    the document holds, and every article it adds or replaces comes from
    a document with at least one valid mention, the last of which is in
    the store when the upload of that document is done. *)
Theorem adapter_filters_degenerate_entities :
  (∀ doc a es,
     EntitiesDB._adaptFromAlchemyDoc doc = JS.Return (Some (a, es)) →
     es ≠ []
     ∧ Forall (λ m, (1 < String.length (Entity.text m))%nat) es
     ∧ ∃ u, EntitiesDB.enrichedUrl doc = Alchemy.UrlObject u
            ∧ ∀ m, m ∈ es ↔ ∃ e, e ∈ Alchemy.entities u
                                 ∧ m = EntitiesDB.adapt_entity doc e
                                 ∧ (1 < String.length (Alchemy.text e))%nat)
  ∧ (∀ doc u st,
       EntitiesDB.enrichedUrl doc = Alchemy.UrlObject u →
       Forall (λ e, (String.length (Alchemy.text e) ≤ 1)%nat) (Alchemy.entities u) →
       EntitiesDB._adaptFromAlchemyDoc doc = JS.Return None
       ∧ EntitiesDB.uploadArticlesFromDocs [Some doc] st = (st, JS.Return ()))
  ∧ (∀ docs st k e,
       entities (EntitiesDB.uploadArticlesFromDocs docs st).1 !! k = Some e →
       entities st !! k = Some e ∨ (1 < String.length (Entity.text e))%nat)
  ∧ (∀ docs st k a,
       articles (EntitiesDB.uploadArticlesFromDocs docs st).1 !! k = Some a →
       articles st !! k = Some a
       ∨ ∃ doc es, Some doc ∈ docs
           ∧ EntitiesDB._adaptFromAlchemyDoc doc = JS.Return (Some (a, es))
           ∧ es ≠ []
           ∧ Forall (λ m, (1 < String.length (Entity.text m))%nat) es)
  ∧ (∀ doc a es st,
       EntitiesDB._adaptFromAlchemyDoc doc = JS.Return (Some (a, es)) →
       let st' := (EntitiesDB.uploadArticlesFromDocs [Some doc] st).1 in
       articles st' !! Alchemy.id doc = Some a
       ∧ ∃ m, m ∈ es ∧ entities st' !! Entity._id m = Some m
              ∧ Entity.article_id m = Alchemy.id doc
              ∧ (1 < String.length (Entity.text m))%nat).
Proof.
  assert (Hlong : ∀ doc a es,
     EntitiesDB._adaptFromAlchemyDoc doc = JS.Return (Some (a, es)) →
     Forall (λ m, (1 < String.length (Entity.text m))%nat) es).
  { intros doc a es (u & _ & _ & -> & _)%adapt_Some.
    apply Forall_forall. by intros m [? _]%list_elem_of_filter. }
  split; [|split; [|split; [|split]]].
  - intros doc a es Ha. pose proof (Hlong _ _ _ Ha) as Hl.
    apply adapt_Some in Ha as (u & Hu & _ & -> & Hne).
    split; [done|]. split; [done|]. exists u. split; [done|].
    intros m. apply adapt_mentions_elem.
  - intros doc u st Hu Hshort.
    assert (Hnone : EntitiesDB._adaptFromAlchemyDoc doc = JS.Return None).
    { unfold EntitiesDB._adaptFromAlchemyDoc. rewrite Hu. cbv zeta.
      destruct (filter _ _) as [|m ms] eqn:Hf; [done|].
      assert (m ∈ filter EntitiesDB.long_text
                (EntitiesDB.adapt_entity doc <$> Alchemy.entities u)) as Hm
        by (rewrite Hf; apply list_elem_of_here).
      apply adapt_mentions_elem in Hm as (e & He & _ & Hlen).
      rewrite Forall_forall in Hshort. specialize (Hshort e He). lia. }
    split; [done|]. simpl. unfold EntitiesDB.upload_doc. by rewrite Hnone.
  - intros docs st k e. apply uploadArticlesFromDocs_entities.
  - intros docs st k a [Ha|(doc & es & Hin & Had)]%uploadArticlesFromDocs_articles;
      [by left|].
    right. exists doc, es. split; [done|]. split; [done|].
    split; [|by apply (Hlong doc a)].
    by apply adapt_Some in Had as (u & _ & _ & _ & Hne).
  - intros doc a es st Ha. simpl. unfold EntitiesDB.upload_doc. rewrite Ha. simpl.
    pose proof (Hlong _ _ _ Ha) as Hl.
    pose proof Ha as (u & _ & Hart & Hes & Hne)%adapt_Some.
    split.
    + rewrite foldl_upsert_entity_articles. simpl. unfold Mongo.findByIdAndUpdate.
      rewrite Hart. simpl. apply lookup_insert_eq.
    + destruct (last es) as [m|] eqn:Hlast; [|by apply last_None in Hlast].
      assert (Hm : m ∈ es) by by apply last_Some_elem_of.
      exists m. split; [done|].
      split; [by apply upload_doc_last_mention|].
      split.
      * rewrite Hes in Hm. by apply adapt_mentions_elem in Hm as (e & _ & -> & _).
      * rewrite Forall_forall in Hl. by apply Hl.
Qed.

(** A document with a one-character entity next to a valid one: only the
    valid one reaches the store. *)
Lemma adapter_filters_degenerate_entities_witness :
  let doc := {| Alchemy.id := "doc1"; Alchemy.timestamp := 1446552000;
                Alchemy.source := Some {| Alchemy.enriched := Some
                  {| Alchemy.enriched_title := None;
                     Alchemy.enriched_url := Alchemy.UrlObject
                       {| Alchemy.title := "Title"; Alchemy.url := "http://example.org/a";
                          Alchemy.entities :=
                            [{| Alchemy.text := "x"; Alchemy.count := 1;
                                Alchemy.sentiment := {| Alchemy.score := 0%float |} |};
                             {| Alchemy.text := "IBM"; Alchemy.count := 3;
                                Alchemy.sentiment := {| Alchemy.score := 0.5%float |} |}] |};
                     Alchemy.enriched_entities := None |} |} |} in
  let m := Entity.mk "IBMdoc1" "doc1" 1446552000000 "IBM" 3 0.5%float in
  let a := Article.mk "doc1" "Title" 1446552000000 "http://example.org/a" in
  EntitiesDB._adaptFromAlchemyDoc doc = JS.Return (Some (a, [m]))
  ∧ [m] ≠ []
  ∧ Forall (λ m, (1 < String.length (Entity.text m))%nat) [m].
Proof.
  intros doc m a.
  assert (Ha : EntitiesDB._adaptFromAlchemyDoc doc = JS.Return (Some (a, [m])))
    by reflexivity.
  destruct (proj1 adapter_filters_degenerate_entities doc a [m] Ha) as (Hne & Hl & _).
  exact (conj Ha (conj Hne Hl)).
Defined.

Lemma string_length_app (s t : string) :
  String.length (s ++ t) = (String.length s + String.length t)%nat.
Proof. induction s as [|c s IH]; simpl; [done|]. by rewrite IH. Qed.

Lemma string_app_inv_tail (s1 s2 t : string) :
  (s1 ++ t)%string = (s2 ++ t)%string → s1 = s2.
Proof.
  revert s2. induction s1 as [|c s1 IH]; intros [|d s2] Heq.
  - done.
  - apply (f_equal String.length) in Heq.
    rewrite !string_length_app in Heq. simpl in Heq. lia.
  - apply (f_equal String.length) in Heq.
    rewrite !string_length_app in Heq. simpl in Heq. lia.
  - injection Heq as -> Heq. f_equal. by apply IH.
Qed.

(** Once a document is uploaded, the mention stored under the id of any
    of its mentions has the text of that mention and the id of the
    document as article. *)
Lemma upload_doc_mention_stored (doc : Alchemy.doc) (a : Article.t)
    (es : list Entity.t) (m : Entity.t) (st : store) :
  EntitiesDB._adaptFromAlchemyDoc doc = JS.Return (Some (a, es)) →
  m ∈ es →
  ∃ m', entities (foldl EntitiesDB.upsert_entity (EntitiesDB.upsert_article a st) es)
          !! Entity._id m = Some m'
        ∧ Entity.text m' = Entity.text m
        ∧ Entity.article_id m' = Alchemy.id doc.
Proof.
  intros (u & _ & _ & Hes & _)%adapt_Some Hm.
  rewrite foldl_upsert_entity_lookup.
  destruct (last _) as [m'|] eqn:Hlast.
  - exists m'. split; [done|].
    apply last_Some_elem_of, list_elem_of_filter in Hlast as [Hid Hm'].
    rewrite Hes in Hm, Hm'.
    apply adapt_mentions_elem in Hm as (e & _ & -> & _).
    apply adapt_mentions_elem in Hm' as (e' & _ & -> & _).
    simpl in *. split; [|done]. by apply string_app_inv_tail in Hid.
  - apply last_None in Hlast.
    assert (m ∈ filter (λ e, Entity._id e = Entity._id m) es) as Hin
      by by apply list_elem_of_filter.
    rewrite Hlast in Hin. by apply not_elem_of_nil in Hin.
Qed.

(** C9. The [_id] of a mention is the entity text followed by the id of
    the document.  Two documents with the same id and an entity of the
    same text therefore give the same mention [_id]; in whichever order
    they are uploaded the store ends with one mention under that [_id],
    with that text and that article; and uploading a document again
    leaves the store as it was after the first upload. *)
Theorem mention_id_is_text_then_doc_id :
  (∀ doc e,
     Entity._id (EntitiesDB.adapt_entity doc e)
     = (Alchemy.text e ++ Alchemy.id doc)%string)
  ∧ (∀ doc a es m,
       EntitiesDB._adaptFromAlchemyDoc doc = JS.Return (Some (a, es)) →
       m ∈ es →
       Entity._id m = (Entity.text m ++ Alchemy.id doc)%string
       ∧ Entity.article_id m = Alchemy.id doc)
  ∧ (∀ d1 d2 a1 es1 a2 es2 m1 m2,
       EntitiesDB._adaptFromAlchemyDoc d1 = JS.Return (Some (a1, es1)) →
       EntitiesDB._adaptFromAlchemyDoc d2 = JS.Return (Some (a2, es2)) →
       Alchemy.id d1 = Alchemy.id d2 →
       m1 ∈ es1 → m2 ∈ es2 → Entity.text m1 = Entity.text m2 →
       Entity._id m1 = Entity._id m2
       ∧ ∀ st,
           (∃ m, entities (EntitiesDB.uploadArticlesFromDocs [Some d1; Some d2] st).1
                   !! Entity._id m1 = Some m
                 ∧ Entity.text m = Entity.text m1
                 ∧ Entity.article_id m = Alchemy.id d1)
           ∧ (∃ m, entities (EntitiesDB.uploadArticlesFromDocs [Some d2; Some d1] st).1
                     !! Entity._id m1 = Some m
                   ∧ Entity.text m = Entity.text m1
                   ∧ Entity.article_id m = Alchemy.id d1))
  ∧ (∀ doc st,
       EntitiesDB.uploadArticlesFromDocs [Some doc; Some doc] st
       = EntitiesDB.uploadArticlesFromDocs [Some doc] st).
Proof.
  assert (Hid : ∀ doc a es m,
       EntitiesDB._adaptFromAlchemyDoc doc = JS.Return (Some (a, es)) →
       m ∈ es →
       Entity._id m = (Entity.text m ++ Alchemy.id doc)%string
       ∧ Entity.article_id m = Alchemy.id doc).
  { intros doc a es m (u & _ & _ & -> & _)%adapt_Some Hm.
    by apply adapt_mentions_elem in Hm as (e & _ & -> & _). }
  split; [done|]. split; [exact Hid|]. split.
  - intros d1 d2 a1 es1 a2 es2 m1 m2 Ha1 Ha2 Hd Hm1 Hm2 Ht.
    destruct (Hid _ _ _ _ Ha1 Hm1) as [Hi1 _].
    destruct (Hid _ _ _ _ Ha2 Hm2) as [Hi2 _].
    assert (Heq : Entity._id m1 = Entity._id m2) by by rewrite Hi1, Hi2, Ht, Hd.
    split; [done|]. intros st. simpl. unfold EntitiesDB.upload_doc.
    rewrite Ha1, Ha2. simpl. split.
    + rewrite Heq, Ht, Hd. by apply (upload_doc_mention_stored d2).
    + by apply (upload_doc_mention_stored d1).
  - intros doc st. simpl.
    destruct (EntitiesDB.upload_doc doc st) as [st1|err] eqn:Hup; [|done].
    by rewrite (upload_doc_idempotent doc st st1).
Qed.

(** The same article analysed twice, with different counts for "IBM":
    one mention id, whichever document is uploaded first. *)
Lemma mention_id_is_text_then_doc_id_witness :
  let mk_doc n :=
    {| Alchemy.id := "doc1"; Alchemy.timestamp := 1446552000;
       Alchemy.source := Some {| Alchemy.enriched := Some
         {| Alchemy.enriched_title := None;
            Alchemy.enriched_url := Alchemy.UrlObject
              {| Alchemy.title := "Title"; Alchemy.url := "http://example.org/a";
                 Alchemy.entities :=
                   [{| Alchemy.text := "IBM"; Alchemy.count := n;
                       Alchemy.sentiment := {| Alchemy.score := 0.5%float |} |}] |};
            Alchemy.enriched_entities := None |} |} |} in
  let m n := Entity.mk "IBMdoc1" "doc1" 1446552000000 "IBM" n 0.5%float in
  Entity._id (m 3) = Entity._id (m 5)
  ∧ (∃ e, entities (EntitiesDB.uploadArticlesFromDocs
                      [Some (mk_doc 3); Some (mk_doc 5)] (Store ∅ ∅)).1
            !! "IBMdoc1"%string = Some e
          ∧ Entity.text e = "IBM"%string ∧ Entity.article_id e = "doc1"%string)
  ∧ (∃ e, entities (EntitiesDB.uploadArticlesFromDocs
                      [Some (mk_doc 5); Some (mk_doc 3)] (Store ∅ ∅)).1
            !! "IBMdoc1"%string = Some e
          ∧ Entity.text e = "IBM"%string ∧ Entity.article_id e = "doc1"%string).
Proof.
  intros mk_doc m.
  destruct (proj1 (proj2 (proj2 mention_id_is_text_then_doc_id))
              (mk_doc 3) (mk_doc 5) _ [m 3] _ [m 5] (m 3) (m 5)
              eq_refl eq_refl eq_refl
              (list_elem_of_here _ _) (list_elem_of_here _ _) eq_refl)
    as [Hid Hst].
  destruct (Hst (Store ∅ ∅)) as [H12 H21].
  exact (conj Hid (conj H12 H21)).
Defined.

(** ** Further properties *)


(** The sibling query [_getMinDate] guards the same access: on an empty
    collection it resolves with [null]. *)
Lemma _getMinDate_empty : EntitiesDB._getMinDate (Store ∅ ∅) = JS.Resolved None.
Proof. reflexivity. Qed.

(** For an entity text without syntax characters the lookup does match
    whole texts up to case: the promise resolves exactly when some stored
    mention in the window has that text up to case. *)
Lemma getArticleIdsForEntity_plain (entity : string) (start end_ : option Z) (st : store) :
  Spec.plain entity →
  ∃ re, RegExp.compile (EntitiesDB.entity_pattern entity) = Some re
    ∧ ∀ d, d ∈ EntitiesDB.ids_matched re (Spec.window_start start)
                 (Spec.window_end end_) (entities st)
           ↔ Spec.stored st d ∧ Text.eq_ignore_case (Entity.text d) entity
             ∧ Spec.window_start start ≤ Entity.date d < Spec.window_end end_.
Proof.
  intros Hp. eexists. split; [by apply compile_entity_pattern|].
  intros d. rewrite ids_matched_elem.
  by rewrite (test_plain_entity entity _ _ Hp (compile_entity_pattern entity Hp)).
Qed.

(** X1. The result is empty exactly when no stored mention is dated inside
    the window. *)
Lemma aggregateEntities_empty_iff
    (start end_ : option Z) (limit : option nat) (st : store) :
  EntitiesDB.aggregateEntities start end_ limit st = JS.Resolved []
  ↔ ∀ d, Spec.stored st d →
         ¬ (Spec.window_start start ≤ Entity.date d < Spec.window_end end_).
Proof.
  rewrite aggregateEntities_unfold.
  set (matched := EntitiesDB.aggregate_matched _ _ _).
  assert (Hm : matched = [] ↔ ∀ d, Spec.stored st d →
         ¬ (Spec.window_start start ≤ Entity.date d < Spec.window_end end_)).
  { split.
    - intros Hnil d Hst Hw.
      assert (d ∈ matched) as Hd by (apply aggregate_matched_elem; done).
      rewrite Hnil in Hd. by apply not_elem_of_nil in Hd.
    - intros Hall. destruct matched as [|d ds] eqn:Hmd; [done|].
      assert (d ∈ matched) as Hd by (rewrite Hmd; apply list_elem_of_here).
      apply aggregate_matched_elem in Hd as [Hst Hw]. by destruct (Hall d Hst). }
  rewrite <- Hm, <- aggregate_grouped_nil.
  rewrite <- (merge_sort_nil Group.desc), <- (take_pos_nil (Spec.group_limit limit))
    by apply group_limit_pos.
  split; [by intros [= ->]|by intros ->].
Qed.

(** The rows that are returned are rows of the grouping. *)
Lemma aggregateEntities_row (start end_ : option Z) (limit : option nat) (st : store)
    (rows : list Group.t) (g : Group.t) :
  EntitiesDB.aggregateEntities start end_ limit st = JS.Resolved rows →
  g ∈ rows →
  g ∈ EntitiesDB.aggregate_grouped
        (EntitiesDB.aggregate_matched (Spec.window_start start)
           (Spec.window_end end_) (entities st)).
Proof.
  rewrite aggregateEntities_unfold. intros [= <-] Hg.
  apply subseteq_take in Hg. by rewrite merge_sort_Permutation in Hg.
Qed.



(** X3. A larger limit never changes the values at the head of the result:
    for limits n ≤ m the values of the rows for n are the first n values
    of the rows for m, and the values that m adds are no larger than
    those.  (Which of several rows of one value comes first is not fixed
    by [$sort], and nothing is said about it.) *)
Lemma aggregateEntities_limit_prefix
    (start end_ : option Z) (n m : nat) (st : store) :
  (0 < n ≤ m)%nat →
  ∃ top rows,
    EntitiesDB.aggregateEntities start end_ (Some n) st = JS.Resolved top
    ∧ EntitiesDB.aggregateEntities start end_ (Some m) st = JS.Resolved rows
    ∧ Group.value <$> top = take n (Group.value <$> rows)
    ∧ ∀ x y, x ∈ Group.value <$> top → y ∈ drop n (Group.value <$> rows) → y ≤ x.
Proof.
  intros [Hn Hnm]. rewrite !aggregateEntities_unfold.
  set (all := merge_sort Group.desc _).
  exists (take n all), (take m all).
  assert (Hgn : Spec.group_limit (Some n) = n) by (destruct n; [lia|done]).
  assert (Hgm : Spec.group_limit (Some m) = m) by (destruct m; [lia|done]).
  rewrite Hgn, Hgm. split; [done|]. split; [done|]. split.
  - rewrite <- fmap_take, take_take. do 2 f_equal. lia.
  - intros x y (g & -> & Hg)%list_elem_of_fmap Hy.
    rewrite <- fmap_drop in Hy. apply list_elem_of_fmap in Hy as (h & -> & Hh).
    assert (Hh' : h ∈ drop n all).
    { apply list_elem_of_lookup in Hh as [i Hi].
      rewrite lookup_drop, lookup_take_Some in Hi. destruct Hi as [Hi _].
      apply list_elem_of_lookup. exists i. by rewrite lookup_drop. }
    assert (Hs : StronglySorted Group.desc (take n all ++ drop n all)).
    { rewrite take_drop. apply (StronglySorted_merge_sort Group.desc). }
    exact (StronglySorted_app_1_elem_of _ _ _ _ _ Hs Hg Hh').
Qed.

Lemma aggregateEntities_limit_prefix_witness :
  let st := Store ∅ (list_to_map
    [("aax"%string, Entity.mk "aax" "x" 10 "aa" 50 0%float);
     ("bbx"%string, Entity.mk "bbx" "x" 10 "bb" 30 0%float);
     ("ccx"%string, Entity.mk "ccx" "x" 10 "cc" 80 0%float)]) in
  ∃ top rows,
    EntitiesDB.aggregateEntities None None (Some 1%nat) st = JS.Resolved top
    ∧ EntitiesDB.aggregateEntities None None (Some 2%nat) st = JS.Resolved rows
    ∧ Group.value <$> top = take 1 (Group.value <$> rows)
    ∧ ∀ x y, x ∈ Group.value <$> top → y ∈ drop 1 (Group.value <$> rows) → y ≤ x.
Proof.
  intros st. apply (aggregateEntities_limit_prefix None None 1 2 st). lia.
Defined.

(** The sums of the groups add up to the sum over the documents. *)
Lemma group_sum_count (key : Entity.t → string) (ds : list Entity.t) :
  foldr Z.add 0 ((λ kv, Mongo.sum_count kv.2) <$>
                   map_to_list (Mongo.group key Mongo.sum_avg_step ds))
  = Spec.total_count ds.
Proof.
  induction ds as [|d ds IH] using rev_ind.
  - unfold Mongo.group. simpl. by rewrite map_to_list_empty.
  - rewrite total_count_snoc, <- IH. unfold Mongo.group. rewrite foldl_snoc.
    fold (Mongo.group key Mongo.sum_avg_step ds).
    set (m := Mongo.group key Mongo.sum_avg_step ds).
    destruct (m !! key d) as [a|] eqn:Hk.
    + rewrite <- (insert_delete_eq m).
      rewrite (sum_Z_Permutation _ _
                 (fmap_Permutation _ _ _
                    (map_to_list_insert (delete (key d) m) (key d) _
                       (lookup_delete_eq m (key d))))).
      rewrite <- (sum_Z_Permutation _ _
                 (fmap_Permutation _ _ _ (map_to_list_delete m (key d) a Hk))).
      rewrite !fmap_cons.
      cbn [foldr snd Mongo.sum_avg_step default Mongo.sum_count id]. lia.
    + rewrite (sum_Z_Permutation _ _
                 (fmap_Permutation _ _ _ (map_to_list_insert m (key d) _ Hk))).
      rewrite fmap_cons.
      cbn [foldr snd Mongo.sum_avg_step default Mongo.sum_count Mongo.sum_avg_init id].
      lia.
Qed.

(** X4. When fewer rows than the limit come back, nothing was cut off and
    the values of the rows add up to the sum of the counts of the
    mentions dated inside the window. *)
Lemma aggregateEntities_values_add_up
    (start end_ : option Z) (limit : option nat) (st : store) (rows : list Group.t) :
  EntitiesDB.aggregateEntities start end_ limit st = JS.Resolved rows →
  (length rows < Spec.group_limit limit)%nat →
  Spec.sum_values rows
  = Spec.total_count
      (filter (λ d, Spec.window_start start ≤ Entity.date d < Spec.window_end end_)
         (Mongo.docs (entities st))).
Proof.
  rewrite aggregateEntities_unfold. intros [= <-] Hlen.
  set (matched := EntitiesDB.aggregate_matched _ _ _) in *.
  set (all := merge_sort Group.desc _) in *.
  rewrite length_take in Hlen. rewrite take_ge by lia.
  unfold Spec.sum_values, all.
  rewrite (sum_Z_Permutation _ _
             (fmap_Permutation _ _ _ (merge_sort_Permutation Group.desc _))).
  unfold EntitiesDB.aggregate_grouped. rewrite <- list_fmap_compose.
  apply (group_sum_count _ matched).
Qed.

Lemma aggregateEntities_values_add_up_witness :
  let st := Store ∅ (list_to_map
    [("IBMa1"%string, Entity.mk "IBMa1" "a1" 1000 "IBM" 3 0.5%float);
     ("ibma2"%string, Entity.mk "ibma2" "a2" 2000 "ibm" 5 0.25%float);
     ("abca3"%string, Entity.mk "abca3" "a3" 2000 "abc" 1 0%float)]) in
  ∃ rows, EntitiesDB.aggregateEntities None None (Some 10%nat) st = JS.Resolved rows
          ∧ Spec.sum_values rows = 9.
Proof.
  intros st.
  assert (∃ rows, EntitiesDB.aggregateEntities None None (Some 10%nat) st
                  = JS.Resolved rows ∧ (length rows < 10)%nat) as (rows & Hres & Hlen)
    by (eexists; split; [vm_compute; reflexivity | simpl; lia]).
  exists rows. split; [exact Hres|].
  rewrite (aggregateEntities_values_add_up None None (Some 10%nat) st rows Hres Hlen).
  vm_compute. reflexivity.
Defined.

(** X6. After [pruneCharEntities] no row has a one-character key. *)
Lemma aggregateEntities_after_pruneCharEntities
    (start end_ : option Z) (limit : option nat) (st : store)
    (rows : list Group.t) (g : Group.t) :
  EntitiesDB.aggregateEntities start end_ limit (EntitiesDB.pruneCharEntities st)
    = JS.Resolved rows →
  g ∈ rows →
  String.length (Group._id g) ≠ 1%nat.
Proof.
  intros Hres Hg.
  pose proof (aggregateEntities_row _ _ _ _ _ _ Hres Hg) as Hrow.
  apply aggregate_grouped_elem in Hrow as (Hne & _ & _).
  destruct (Spec.members _ _) as [|d ds] eqn:Hm; [done|].
  assert (d ∈ Spec.members (Group._id g)
            (EntitiesDB.aggregate_matched (Spec.window_start start)
               (Spec.window_end end_)
               (entities (EntitiesDB.pruneCharEntities st)))) as Hd
    by (rewrite Hm; apply list_elem_of_here).
  apply list_elem_of_filter in Hd as [<- Hd].
  apply aggregate_matched_elem in Hd as [[k Hk] _].
  unfold EntitiesDB.pruneCharEntities in Hk. simpl in Hk.
  apply remove_lookup in Hk as [_ Hlen].
  by rewrite toLower_length.
Qed.

Lemma aggregateEntities_after_pruneCharEntities_witness :
  let st := Store ∅ (list_to_map
    [("xa1"%string, Entity.mk "xa1" "a1" 1000 "x" 9 0%float);
     ("ibma2"%string, Entity.mk "ibma2" "a2" 2000 "ibm" 5 0%float)]) in
  ∃ q, EntitiesDB.aggregateEntities None None None (EntitiesDB.pruneCharEntities st)
       = JS.Resolved [Group.mk "ibm" 5 q]
       ∧ String.length "ibm" ≠ 1%nat.
Proof.
  intros st.
  assert (∃ q, EntitiesDB.aggregateEntities None None None
                 (EntitiesDB.pruneCharEntities st)
               = JS.Resolved [Group.mk "ibm" 5 q]) as [q Hres]
    by (eexists; vm_compute; reflexivity).
  exists q. split; [exact Hres|].
  exact (aggregateEntities_after_pruneCharEntities None None None st _
           (Group.mk "ibm" 5 q) Hres (list_elem_of_here _ _)).
Defined.

(** X7. The lookup resolves exactly when some stored mention matches the
    pattern inside the window, and otherwise ends in the uncaught
    [TypeError]; the ids it resolves with are article ids of such
    mentions. *)
Lemma getArticleIdsForEntity_resolves_iff
    (entity : string) (re : RegExp.t) (start end_ : option Z) (st : store) :
  RegExp.compile (EntitiesDB.entity_pattern entity) = Some re →
  let hit d :=
    Spec.stored st d ∧ RegExp.test re (Entity.text d) = true
    ∧ Spec.window_start start ≤ Entity.date d < Spec.window_end end_ in
  ((∃ ids, EntitiesDB.getArticleIdsForEntity entity start end_ st
           = Some (JS.Resolved ids))
   ↔ ∃ d, hit d)
  ∧ (EntitiesDB.getArticleIdsForEntity entity start end_ st
       = Some (JS.Crashed JS.TypeError)
     ↔ ¬ ∃ d, hit d)
  ∧ (∀ ids, EntitiesDB.getArticleIdsForEntity entity start end_ st
            = Some (JS.Resolved ids) →
            ids ≠ [] ∧ ∀ i, i ∈ ids → ∃ d, hit d ∧ Entity.article_id d = i).
Proof.
  intros Hre hit.
  assert (Hsound : ∀ ids, EntitiesDB.getArticleIdsForEntity entity start end_ st
            = Some (JS.Resolved ids) →
            ids ≠ [] ∧ ∀ i, i ∈ ids → ∃ d, hit d ∧ Entity.article_id d = i).
  { intros ids (re' & t & Hre' & Hne & Hids)%getArticleIdsForEntity_Resolved.
    rewrite Hre in Hre'. injection Hre' as <-. split; [done|].
    intros i Hi. rewrite Hids in Hi.
    apply list_elem_of_fmap in Hi as (d & -> & Hd).
    apply list_elem_of_filter in Hd as [_ Hd].
    apply ids_matched_elem in Hd. by exists d. }
  assert (Hcases : (EntitiesDB.getArticleIdsForEntity entity start end_ st
                      = Some (JS.Crashed JS.TypeError) ∧ ¬ ∃ d, hit d)
                   ∨ ((∃ ids, EntitiesDB.getArticleIdsForEntity entity start end_ st
                              = Some (JS.Resolved ids)) ∧ ∃ d, hit d)).
  { unfold EntitiesDB.getArticleIdsForEntity. rewrite Hre.
    fold (Spec.window_start start) (Spec.window_end end_).
    destruct (EntitiesDB.ids_pipeline re _ _ _) as [|g gs] eqn:Hp.
    - left. split; [done|]. apply ids_pipeline_nil_iff in Hp.
      intros [d Hd]. apply ids_matched_elem in Hd. rewrite Hp in Hd.
      by apply not_elem_of_nil in Hd.
    - right. simpl. split; [by eexists|].
      destruct (EntitiesDB.ids_matched re (Spec.window_start start)
                  (Spec.window_end end_) (entities st)) as [|d ds] eqn:Hm.
      + apply ids_pipeline_nil in Hm. by rewrite Hm in Hp.
      + exists d. apply ids_matched_elem. rewrite Hm. apply list_elem_of_here. }
  split; [|split; [|exact Hsound]].
  - destruct Hcases as [[Hc Hno]|[Hr Hd]]; [|done].
    split; [|done]. intros [ids Hids]. by rewrite Hc in Hids.
  - destruct Hcases as [[Hc Hno]|[[ids Hr] Hd]]; [done|].
    split; [|done]. intros Hc. by rewrite Hr in Hc.
Qed.

Lemma getArticleIdsForEntity_resolves_iff_witness :
  let d := Entity.mk "obamaa1" "a1" 1000 "Obama" 2 0%float in
  let st := Store ∅ {[ "obamaa1"%string := d ]} in
  ∃ ids, EntitiesDB.getArticleIdsForEntity "obama" None None st
         = Some (JS.Resolved ids).
Proof.
  intros d st.
  destruct (getArticleIdsForEntity_resolves_iff "obama"
              [[RegExp.Bol; RegExp.Lit "o"; RegExp.Lit "b"; RegExp.Lit "a";
                RegExp.Lit "m"; RegExp.Lit "a"; RegExp.Eol]] None None st eq_refl)
    as [[_ Hres] _].
  apply Hres. exists d. split; [|split; [reflexivity|simpl; lia]].
  exists "obamaa1"%string. vm_compute. reflexivity.
Defined.

Lemma well_keyed_docs_NoDup (st : store) :
  Spec.well_keyed st → NoDup (Mongo.docs (entities st)).
Proof.
  intros [_ Hwk]. unfold Mongo.docs.
  apply NoDup_fmap_2_strong; [|apply NoDup_map_to_list].
  intros [k1 v1] [k2 v2] H1%elem_of_map_to_list H2%elem_of_map_to_list. simpl.
  intros <-. f_equal.
  destruct (Hwk _ _ H1) as [-> _]. by destruct (Hwk _ _ H2) as [-> _].
Qed.

Lemma ids_NoDup_of_well_keyed
    (entity : string) (start end_ : option Z) (st : store) (ids : list string) :
  Spec.well_keyed st →
  EntitiesDB.getArticleIdsForEntity entity start end_ st = Some (JS.Resolved ids) →
  NoDup ids.
Proof.
  intros Hwk (re & t & _ & _ & ->)%getArticleIdsForEntity_Resolved.
  apply NoDup_fmap_2_strong.
  - intros x y [Hx Hxm]%list_elem_of_filter [Hy Hym]%list_elem_of_filter Haid.
    apply ids_matched_elem in Hxm as [[kx Hkx] _].
    apply ids_matched_elem in Hym as [[ky Hky] _].
    destruct Hwk as [_ Hwk].
    destruct (Hwk _ _ Hkx) as [Hk1 Hi1]. destruct (Hwk _ _ Hky) as [Hk2 Hi2].
    assert (Hkk : kx = ky) by (rewrite Hk1, Hk2, Hi1, Hi2, Hx, Hy, Haid; done).
    rewrite Hkk in Hkx. rewrite Hkx in Hky. by injection Hky.
  - apply NoDup_filter. unfold EntitiesDB.ids_matched. apply NoDup_filter.
    by apply well_keyed_docs_NoDup.
Qed.

(** X8. In a store where every mention sits under [text ++ article_id], as
    ingestion puts it, the ids the lookup resolves with are pairwise
    distinct. *)
Lemma getArticleIdsForEntity_NoDup
    (entity : string) (start end_ : option Z) (st : store) (ids : list string) :
  Spec.well_keyed st →
  EntitiesDB.getArticleIdsForEntity entity start end_ st = Some (JS.Resolved ids) →
  NoDup ids.
Proof. apply ids_NoDup_of_well_keyed. Qed.

Lemma getArticleIdsForEntity_NoDup_witness :
  let st := Store ∅ (list_to_map
    [("ibma1"%string, Entity.mk "ibma1" "a1" 1000 "ibm" 3 0%float);
     ("ibma2"%string, Entity.mk "ibma2" "a2" 2000 "ibm" 5 0%float)]) in
  ∃ ids, EntitiesDB.getArticleIdsForEntity "IBM" None None st = Some (JS.Resolved ids)
         ∧ NoDup ids.
Proof.
  intros st.
  assert (∃ ids, EntitiesDB.getArticleIdsForEntity "IBM" None None st
                 = Some (JS.Resolved ids)) as [ids Hres]
    by (eexists; vm_compute; reflexivity).
  exists ids. split; [exact Hres|].
  refine (getArticleIdsForEntity_NoDup "IBM" None None st ids _ Hres).
  split.
  - intros k a Hk. simpl in Hk. by rewrite lookup_empty in Hk.
  - intros k e Hk. apply elem_of_list_to_map_2, list_elem_of_In in Hk.
    destruct Hk as [[= <- <-]|[[= <- <-]|[]]]; split; reflexivity.
Defined.

Lemma getArticleIdsForEntity_plain_witness :
  ∃ re, RegExp.compile (EntitiesDB.entity_pattern "bank") = Some re
        ∧ RegExp.test re "Bank" = true ∧ RegExp.test re "bankrupt" = false.
Proof.
  assert (Hp : Spec.plain "bank") by (repeat constructor).
  destruct (getArticleIdsForEntity_plain "bank" None None (Store ∅ ∅) Hp)
    as (re & Hre & _).
  exists re. split; [exact Hre|].
  injection Hre as <-. split; reflexivity.
Defined.

#[local] Instance newest_first_trans : Transitive EntitiesDB.newest_first.
Proof. unfold EntitiesDB.newest_first. intros x y z ? ?. lia. Qed.

#[local] Instance newest_first_total : Total EntitiesDB.newest_first.
Proof. unfold EntitiesDB.newest_first. intros x y. lia. Qed.

#[local] Instance oldest_first_trans : Transitive EntitiesDB.oldest_first.
Proof. unfold EntitiesDB.oldest_first. intros x y z ? ?. lia. Qed.

#[local] Instance oldest_first_total : Total EntitiesDB.oldest_first.
Proof. unfold EntitiesDB.oldest_first. intros x y. lia. Qed.

(** X12. [getArticlesForEntity] resolves with all the stored articles whose
    id the id lookup returned, none left out and no limit applied,
    newest first; an id without a stored article is passed over; and when
    the id lookup ends in the uncaught exception so does this query. *)
Lemma getArticlesForEntity_sorted_stored
    (entity : string) (start end_ : option Z) (st : store) :
  (∀ arts, EntitiesDB.getArticlesForEntity entity start end_ st
           = Some (JS.Resolved arts) →
     ∃ ids, EntitiesDB.getArticleIdsForEntity entity start end_ st
            = Some (JS.Resolved ids)
       ∧ StronglySorted (λ a1 a2, Article.date a2 ≤ Article.date a1) arts
       ∧ ∀ a, a ∈ arts ↔ (∃ k, articles st !! k = Some a) ∧ Article._id a ∈ ids)
  ∧ (∀ e, EntitiesDB.getArticleIdsForEntity entity start end_ st
          = Some (JS.Crashed e) →
          EntitiesDB.getArticlesForEntity entity start end_ st
          = Some (JS.Crashed e))
  ∧ (∀ ids, EntitiesDB.getArticleIdsForEntity entity start end_ st
            = Some (JS.Resolved ids) →
            ∃ arts, EntitiesDB.getArticlesForEntity entity start end_ st
                    = Some (JS.Resolved arts)).
Proof.
  unfold EntitiesDB.getArticlesForEntity.
  destruct (EntitiesDB.getArticleIdsForEntity entity start end_ st)
    as [[ids|e|e]|]; simpl.
  - split; [|split; [done|]].
    + intros arts [= <-]. exists ids. split; [done|]. split.
      * apply (StronglySorted_merge_sort EntitiesDB.newest_first).
      * intros a. rewrite merge_sort_Permutation, list_elem_of_filter, docs_elem. tauto.
    + intros ids' _. by eexists.
  - split; [done|]. split; [|done]. by intros e' [= <-].
  - split; [done|]. split; [|done]. by intros e' [= <-].
  - done.
Qed.

(** An article without mention in the window is not returned, and a
    mention whose article is not stored adds nothing. *)
Example getArticlesForEntity_orphans :
  let st := Store
    (list_to_map [("a1"%string, Article.mk "a1" "one" 1000 "u1");
                  ("a3"%string, Article.mk "a3" "three" 3000 "u3")])
    (list_to_map [("ibma1"%string, Entity.mk "ibma1" "a1" 1000 "ibm" 3 0%float);
                  ("ibma2"%string, Entity.mk "ibma2" "a2" 2000 "ibm" 5 0%float)]) in
  EntitiesDB.getArticlesForEntity "IBM" None None st
  = Some (JS.Resolved [Article.mk "a1" "one" 1000 "u1"]).
Proof. vm_compute. reflexivity. Qed.

Lemma first_date_sorted (R : relation Article.t) `{∀ x y, Decision (R x y)}
    `{!Transitive R, !Total R} (l : list Article.t) (t : Z) :
  EntitiesDB.first_date (Mongo.limit 1 (merge_sort R l)) = Some t →
  ∃ a, a ∈ l ∧ Article.date a = t ∧ ∀ b, b ∈ l → a = b ∨ R a b.
Proof.
  pose proof (StronglySorted_merge_sort R l) as Hs.
  pose proof (merge_sort_Permutation R l) as Hp.
  destruct (merge_sort R l) as [|a l'] eqn:Hm; simpl; [done|].
  intros [= <-]. exists a. split; [rewrite <- Hp; apply list_elem_of_here|].
  split; [done|]. intros b Hb. rewrite <- Hp in Hb.
  apply elem_of_cons in Hb as [->|Hb]; [by left|right].
  apply StronglySorted_inv in Hs as [_ Hall].
  rewrite Forall_forall in Hall. by apply Hall.
Qed.

Lemma first_date_None (R : relation Article.t) `{∀ x y, Decision (R x y)}
    (l : list Article.t) :
  EntitiesDB.first_date (Mongo.limit 1 (merge_sort R l)) = None ↔ l = [].
Proof.
  rewrite <- (merge_sort_nil R l). destruct (merge_sort R l); simpl; split; congruence.
Qed.

(** X13. [getMinAndMaxDates] resolves with [null] for both dates exactly when
    no article is stored, and otherwise with the dates of a stored
    article that no stored article is older than, and of one that none is
    newer than. *)
Lemma getMinAndMaxDates_bounds (st : store) :
  ∃ min max,
    EntitiesDB.getMinAndMaxDates st = JS.Resolved (min, max)
    ∧ (min = None ↔ articles st = ∅)
    ∧ (max = None ↔ articles st = ∅)
    ∧ (∀ lo, min = Some lo →
         (∃ k a, articles st !! k = Some a ∧ Article.date a = lo)
         ∧ ∀ k a, articles st !! k = Some a → lo ≤ Article.date a)
    ∧ (∀ hi, max = Some hi →
         (∃ k a, articles st !! k = Some a ∧ Article.date a = hi)
         ∧ ∀ k a, articles st !! k = Some a → Article.date a ≤ hi).
Proof.
  exists (EntitiesDB.first_date
            (Mongo.limit 1 (merge_sort EntitiesDB.oldest_first (Mongo.docs (articles st))))),
         (EntitiesDB.first_date
            (Mongo.limit 1 (merge_sort EntitiesDB.newest_first (Mongo.docs (articles st))))).
  split; [reflexivity|].
  assert (Hnil : Mongo.docs (articles st) = [] ↔ articles st = ∅).
  { unfold Mongo.docs. rewrite <- map_to_list_empty_iff.
    split; [apply fmap_nil_inv|by intros ->]. }
  split; [by rewrite first_date_None|]. split; [by rewrite first_date_None|].
  split.
  - intros lo Hlo.
    destruct (first_date_sorted EntitiesDB.oldest_first _ _ Hlo) as (a & Ha & Hd & Hmin).
    apply docs_elem in Ha as [k Hk]. split; [by exists k, a|].
    intros k' b Hb. rewrite <- Hd.
    assert (Hin : b ∈ Mongo.docs (articles st)) by (apply docs_elem; by exists k').
    destruct (Hmin b Hin) as [->|Hle]; [lia|exact Hle].
  - intros hi Hhi.
    destruct (first_date_sorted EntitiesDB.newest_first _ _ Hhi) as (a & Ha & Hd & Hmax).
    apply docs_elem in Ha as [k Hk]. split; [by exists k, a|].
    intros k' b Hb. rewrite <- Hd.
    assert (Hin : b ∈ Mongo.docs (articles st)) by (apply docs_elem; by exists k').
    destruct (Hmax b Hin) as [->|Hle]; [lia|exact Hle].
Qed.

(** The effect of one adapted pair on the store. *)
Lemma upload_doc_adapted (doc : Alchemy.doc) (st : store) (p : Article.t * list Entity.t) :
  EntitiesDB._adaptFromAlchemyDoc doc = JS.Return (Some p) →
  EntitiesDB.upload_doc doc st
  = JS.Return (foldl EntitiesDB.upsert_entity (EntitiesDB.upsert_article p.1 st) p.2).
Proof. unfold EntitiesDB.upload_doc. intros ->. by destruct p. Qed.

Lemma upload_store_fold (docs : list (option Alchemy.doc)) (st : store) :
  (EntitiesDB.uploadArticlesFromDocs docs st).1
  = foldl (λ s p, foldl EntitiesDB.upsert_entity (EntitiesDB.upsert_article p.1 s) p.2)
          st (Spec.adapted docs).
Proof.
  revert st. induction docs as [|[doc|] docs IH]; intros st; simpl; [done| |apply IH].
  unfold EntitiesDB.upload_doc.
  destruct (EntitiesDB._adaptFromAlchemyDoc doc) as [[[a es]|]|err]; simpl;
    [apply IH|apply IH|done].
Qed.


Lemma fold_pairs_entities (ps : list (Article.t * list Entity.t)) (st : store) :
  entities (foldl (λ s p, foldl EntitiesDB.upsert_entity
                            (EntitiesDB.upsert_article p.1 s) p.2) st ps)
  = entities (foldl EntitiesDB.upsert_entity st (mjoin ps.*2)).
Proof.
  revert st. induction ps as [|[a es] ps IH]; intros st; simpl; [done|].
  rewrite IH, foldl_app. clear IH.
  assert (Hes : ∀ s1 s2 l, entities s1 = entities s2 →
            entities (foldl EntitiesDB.upsert_entity s1 l)
            = entities (foldl EntitiesDB.upsert_entity s2 l)).
  { intros s1 s2 l. revert s1 s2. induction l as [|e l IHl]; intros s1 s2 H; simpl; [done|].
    apply IHl. simpl. by rewrite H. }
  apply Hes, Hes. done.
Qed.

Lemma fold_pairs_articles (ps : list (Article.t * list Entity.t)) (st : store) :
  articles (foldl (λ s p, foldl EntitiesDB.upsert_entity
                            (EntitiesDB.upsert_article p.1 s) p.2) st ps)
  = foldl (λ m a, <[Article._id a := a]> m) (articles st) ps.*1.
Proof.
  revert st. induction ps as [|[a es] ps IH]; intros st; simpl; [done|].
  by rewrite IH, foldl_upsert_entity_articles.
Qed.

Lemma foldl_insert_articles_lookup (l : list Article.t) (m : gmap string Article.t)
    (k : string) :
  foldl (λ m a, <[Article._id a := a]> m) m l !! k
  = match last (filter (λ a, Article._id a = k) l) with
    | Some a => Some a
    | None => m !! k
    end.
Proof.
  induction l as [|a l IH] using rev_ind; [done|].
  rewrite foldl_snoc, filter_app.
  destruct (decide (Article._id a = k)) as [Hk|Hk].
  - rewrite filter_cons_True by done. rewrite filter_nil, last_snoc.
    rewrite Hk. apply lookup_insert_eq.
  - rewrite filter_cons_False by done. rewrite filter_nil, app_nil_r.
    rewrite lookup_insert_ne by done. apply IH.
Qed.

Lemma upload_entities_lookup (docs : list (option Alchemy.doc)) (st : store) (k : string) :
  entities (EntitiesDB.uploadArticlesFromDocs docs st).1 !! k
  = match last (filter (λ e, Entity._id e = k) (Spec.written_mentions docs)) with
    | Some e => Some e
    | None => entities st !! k
    end.
Proof.
  rewrite upload_store_fold, fold_pairs_entities. apply foldl_upsert_entity_lookup.
Qed.

Lemma upload_articles_lookup (docs : list (option Alchemy.doc)) (st : store) (k : string) :
  articles (EntitiesDB.uploadArticlesFromDocs docs st).1 !! k
  = match last (filter (λ a, Article._id a = k) (Spec.written_articles docs)) with
    | Some a => Some a
    | None => articles st !! k
    end.
Proof.
  rewrite upload_store_fold, fold_pairs_articles. apply foldl_insert_articles_lookup.
Qed.

Lemma adapted_elem (docs : list (option Alchemy.doc)) (p : Article.t * list Entity.t) :
  p ∈ Spec.adapted docs →
  ∃ doc, Some doc ∈ docs ∧ EntitiesDB._adaptFromAlchemyDoc doc = JS.Return (Some p).
Proof.
  induction docs as [|[doc|] docs IH]; simpl.
  - by intros ?%not_elem_of_nil.
  - destruct (EntitiesDB._adaptFromAlchemyDoc doc) as [[q|]|err] eqn:Ha.
    + intros [->|Hp]%elem_of_cons.
      * exists doc. split; [apply list_elem_of_here|done].
      * destruct (IH Hp) as (doc' & Hin & Hd). exists doc'.
        split; [by apply list_elem_of_further|done].
    + intros Hp. destruct (IH Hp) as (doc' & Hin & Hd). exists doc'.
      split; [by apply list_elem_of_further|done].
    + by intros ?%not_elem_of_nil.
  - intros Hp. destruct (IH Hp) as (doc' & Hin & Hd). exists doc'.
    split; [by apply list_elem_of_further|done].
Qed.

(** A written mention is an adapted valid entity of a document of the
    batch. *)
Lemma written_mentions_elem (docs : list (option Alchemy.doc)) (m : Entity.t) :
  m ∈ Spec.written_mentions docs →
  ∃ doc e, Some doc ∈ docs ∧ m = EntitiesDB.adapt_entity doc e
           ∧ (1 < String.length (Alchemy.text e))%nat.
Proof.
  unfold Spec.written_mentions.
  intros (es & Hm & Hes)%list_elem_of_join.
  apply list_elem_of_fmap in Hes as ([a es'] & -> & Hp). simpl in Hm.
  apply adapted_elem in Hp as (doc & Hdoc & Ha).
  apply adapt_Some in Ha as (u & _ & _ & -> & _).
  apply adapt_mentions_elem in Hm as (e & _ & -> & Hlen).
  by exists doc, e.
Qed.

Lemma written_articles_elem (docs : list (option Alchemy.doc)) (a : Article.t) :
  a ∈ Spec.written_articles docs →
  ∃ doc, Some doc ∈ docs ∧ Article._id a = Alchemy.id doc.
Proof.
  unfold Spec.written_articles.
  intros ([a' es] & -> & Hp)%list_elem_of_fmap.
  apply adapted_elem in Hp as (doc & Hdoc & Ha).
  apply adapt_Some in Ha as (u & _ & -> & _). by exists doc.
Qed.

Lemma last_filter_cases {A} (P : A → Prop) `{∀ x, Decision (P x)} (l : list A) :
  match last (filter P l) with
  | Some x => x ∈ filter P l
  | None => filter P l = []
  end.
Proof.
  destruct (last (filter P l)) as [x|] eqn:Hl.
  - by apply last_Some_elem_of.
  - by apply last_None.
Qed.

(** X14. After a batch, an id the batch wrote under holds one of the
    records the batch wrote under it, and an id it did not write under
    holds what it held before.  In particular, when all the records
    written under an id are the same record, that record is stored.
    (Which of several different records written under one id stays is
    decided by the order in which the store completes the writes, and
    nothing is said about it.) *)
Lemma uploadArticlesFromDocs_holds_a_written_record
    (docs : list (option Alchemy.doc)) (st : store) (k : string) :
  let st' := (EntitiesDB.uploadArticlesFromDocs docs st).1 in
  let ms := filter (λ e, Entity._id e = k) (Spec.written_mentions docs) in
  let ars := filter (λ a, Article._id a = k) (Spec.written_articles docs) in
  (ms = [] → entities st' !! k = entities st !! k)
  ∧ (ms ≠ [] → ∃ e, e ∈ ms ∧ entities st' !! k = Some e)
  ∧ (∀ w, w ∈ ms → (∀ e, e ∈ ms → e = w) → entities st' !! k = Some w)
  ∧ (ars = [] → articles st' !! k = articles st !! k)
  ∧ (ars ≠ [] → ∃ a, a ∈ ars ∧ articles st' !! k = Some a)
  ∧ (∀ w, w ∈ ars → (∀ a, a ∈ ars → a = w) → articles st' !! k = Some w).
Proof.
  intros st' ms ars. unfold st'.
  rewrite upload_entities_lookup, upload_articles_lookup.
  pose proof (last_filter_cases (λ e, Entity._id e = k) (Spec.written_mentions docs)) as Hm.
  pose proof (last_filter_cases (λ a, Article._id a = k) (Spec.written_articles docs)) as Ha.
  fold ms in Hm. fold ars in Ha.
  split; [|split; [|split; [|split; [|split]]]].
  - intros Hnil. fold ms. by rewrite Hnil.
  - intros Hne. fold ms. destruct (last ms) as [e|]; [by exists e|done].
  - intros w Hw Hall. fold ms. destruct (last ms) as [e|].
    + by rewrite (Hall e Hm).
    + rewrite Hm in Hw. by apply not_elem_of_nil in Hw.
  - intros Hnil. fold ars. by rewrite Hnil.
  - intros Hne. fold ars. destruct (last ars) as [a|]; [by exists a|done].
  - intros w Hw Hall. fold ars. destruct (last ars) as [a|].
    + by rewrite (Hall a Ha).
    + rewrite Ha in Hw. by apply not_elem_of_nil in Hw.
Qed.

(** X15. Uploading a batch never deletes a record, and leaves alone every id
    it does not write. *)
Lemma uploadArticlesFromDocs_frame
    (docs : list (option Alchemy.doc)) (st : store) (k : string) :
  let st' := (EntitiesDB.uploadArticlesFromDocs docs st).1 in
  (is_Some (entities st !! k) → is_Some (entities st' !! k))
  ∧ (is_Some (articles st !! k) → is_Some (articles st' !! k))
  ∧ ((∀ doc e, Some doc ∈ docs →
        (Alchemy.text e ++ Alchemy.id doc)%string ≠ k) →
     entities st' !! k = entities st !! k)
  ∧ ((∀ doc, Some doc ∈ docs → Alchemy.id doc ≠ k) →
     articles st' !! k = articles st !! k).
Proof.
  intros st'. unfold st'.
  rewrite upload_entities_lookup, upload_articles_lookup.
  split; [by destruct (last _)|]. split; [by destruct (last _)|]. split.
  - intros Hk. destruct (last _) as [e|] eqn:Hl; [|done].
    apply last_Some_elem_of, list_elem_of_filter in Hl as [Hid He].
    apply written_mentions_elem in He as (doc & e0 & Hdoc & -> & _).
    by destruct (Hk doc e0 Hdoc).
  - intros Hk. destruct (last _) as [a|] eqn:Hl; [|done].
    apply last_Some_elem_of, list_elem_of_filter in Hl as [Hid Ha].
    apply written_articles_elem in Ha as (doc & Hdoc & Hida).
    destruct (Hk doc Hdoc). by rewrite <- Hida.
Qed.


Lemma upload_well_keyed (docs : list (option Alchemy.doc)) (st : store) :
  Spec.well_keyed st →
  Spec.well_keyed (EntitiesDB.uploadArticlesFromDocs docs st).1.
Proof.
  intros [Hart Hent]. split.
  - intros k a. rewrite upload_articles_lookup.
    destruct (last _) as [a'|] eqn:Hl; [|apply Hart].
    intros [= ->]. by apply last_Some_elem_of, list_elem_of_filter in Hl as [-> _].
  - intros k e. rewrite upload_entities_lookup.
    destruct (last _) as [e'|] eqn:Hl; [|apply Hent].
    intros [= ->]. apply last_Some_elem_of, list_elem_of_filter in Hl as [<- He].
    by apply written_mentions_elem in He as (doc & e0 & _ & -> & _).
Qed.

(** X18. Ingestion keeps every record under its own [_id] and every mention
    under [text ++ article_id]: a store that is keyed that way, the empty
    one for a start, stays so after any batch. *)
Lemma uploadArticlesFromDocs_well_keyed (docs : list (option Alchemy.doc)) (st : store) :
  Spec.well_keyed st →
  Spec.well_keyed (EntitiesDB.uploadArticlesFromDocs docs st).1.
Proof. apply upload_well_keyed. Qed.

Lemma uploadArticlesFromDocs_well_keyed_witness :
  let doc :=
    {| Alchemy.id := "doc1"; Alchemy.timestamp := 1446552000;
       Alchemy.source := Some {| Alchemy.enriched := Some
         {| Alchemy.enriched_title := None;
            Alchemy.enriched_url := Alchemy.UrlObject
              {| Alchemy.title := "Title"; Alchemy.url := "http://example.org/a";
                 Alchemy.entities :=
                   [{| Alchemy.text := "IBM"; Alchemy.count := 3;
                       Alchemy.sentiment := {| Alchemy.score := 0.5%float |} |}] |};
            Alchemy.enriched_entities := None |} |} |} in
  Spec.well_keyed (EntitiesDB.uploadArticlesFromDocs [Some doc] (Store ∅ ∅)).1.
Proof.
  intros doc. apply uploadArticlesFromDocs_well_keyed.
  split; intros k x Hk; simpl in Hk; by rewrite lookup_empty in Hk.
Defined.

(** X20. The sweep of one-character texts finds nothing to remove in a store
    that ingestion alone has filled. *)
Lemma pruneCharEntities_after_upload (docs : list (option Alchemy.doc)) (st : store) :
  (∀ k e, entities st !! k = Some e → String.length (Entity.text e) ≠ 1%nat) →
  EntitiesDB.pruneCharEntities (EntitiesDB.uploadArticlesFromDocs docs st).1
  = (EntitiesDB.uploadArticlesFromDocs docs st).1.
Proof.
  intros Hst. apply store_eq; [done|]. simpl. unfold Mongo.remove.
  apply map_filter_id. intros k e He. simpl. unfold EntitiesDB.char_text.
  apply uploadArticlesFromDocs_entities in He as [He|Hlong].
  - by apply Hst in He.
  - unfold EntitiesDB.long_text in Hlong. lia.
Qed.

Lemma pruneCharEntities_after_upload_witness :
  let doc :=
    {| Alchemy.id := "doc1"; Alchemy.timestamp := 1446552000;
       Alchemy.source := Some {| Alchemy.enriched := Some
         {| Alchemy.enriched_title := None;
            Alchemy.enriched_url := Alchemy.UrlObject
              {| Alchemy.title := "Title"; Alchemy.url := "http://example.org/a";
                 Alchemy.entities :=
                   [{| Alchemy.text := "x"; Alchemy.count := 1;
                       Alchemy.sentiment := {| Alchemy.score := 0%float |} |};
                    {| Alchemy.text := "IBM"; Alchemy.count := 3;
                       Alchemy.sentiment := {| Alchemy.score := 0.5%float |} |}] |};
            Alchemy.enriched_entities := None |} |} |} in
  EntitiesDB.pruneCharEntities (EntitiesDB.uploadArticlesFromDocs [Some doc] (Store ∅ ∅)).1
  = (EntitiesDB.uploadArticlesFromDocs [Some doc] (Store ∅ ∅)).1.
Proof.
  intros doc. apply pruneCharEntities_after_upload.
  intros k e Hk. simpl in Hk. by rewrite lookup_empty in Hk.
Defined.

Lemma string_app_assoc (s t u : string) : ((s ++ t) ++ u = s ++ (t ++ u))%string.
Proof.
  induction s as [|c s IH]; [done|].
  change (String c s +:+ t) with (String c (s +:+ t)).
  change (String c (s +:+ t) +:+ u) with (String c ((s +:+ t) +:+ u)).
  change (String c s +:+ (t +:+ u)) with (String c (s +:+ (t +:+ u))).
  by rewrite IH.
Qed.

(** X21. The key [text ++ id] tells apart the texts of one document and the
    documents of one text, but not every pair of text and document: a
    text that ends with [s] in a document [i] gets the key of the text
    without [s] in a document [s ++ i]. *)
Lemma mention_key_injective (d1 d2 : Alchemy.doc) (e1 e2 : Alchemy.entity) :
  (Alchemy.id d1 = Alchemy.id d2 →
   Entity._id (EntitiesDB.adapt_entity d1 e1) = Entity._id (EntitiesDB.adapt_entity d2 e2)
   ↔ Alchemy.text e1 = Alchemy.text e2)
  ∧ (Alchemy.text e1 = Alchemy.text e2 →
     Entity._id (EntitiesDB.adapt_entity d1 e1) = Entity._id (EntitiesDB.adapt_entity d2 e2)
     ↔ Alchemy.id d1 = Alchemy.id d2)
  ∧ (∀ s, Alchemy.text e1 = (Alchemy.text e2 ++ s)%string →
          Alchemy.id d2 = (s ++ Alchemy.id d1)%string →
          Entity._id (EntitiesDB.adapt_entity d1 e1)
          = Entity._id (EntitiesDB.adapt_entity d2 e2)).
Proof.
  simpl. split; [|split].
  - intros ->. split; [apply string_app_inv_tail|by intros ->].
  - intros ->. split; [apply (inj (String.app _))|by intros ->].
  - intros s -> ->. apply string_app_assoc.
Qed.

(** Two documents whose keys collide: the second upload replaces the
    mention of the first, whose article is left without any. *)
Example mention_key_collision :
  let mk_doc i t :=
    {| Alchemy.id := i; Alchemy.timestamp := 1446552000;
       Alchemy.source := Some {| Alchemy.enriched := Some
         {| Alchemy.enriched_title := None;
            Alchemy.enriched_url := Alchemy.UrlObject
              {| Alchemy.title := "Title"; Alchemy.url := "http://example.org/a";
                 Alchemy.entities :=
                   [{| Alchemy.text := t; Alchemy.count := 1;
                       Alchemy.sentiment := {| Alchemy.score := 0%float |} |}] |};
            Alchemy.enriched_entities := None |} |} |} in
  let st := (EntitiesDB.uploadArticlesFromDocs
               [Some (mk_doc "b" "xaa"); Some (mk_doc "ab" "xa")] (Store ∅ ∅)).1 in
  Entity.article_id <$> Mongo.docs (entities st) = ["ab"%string]
  ∧ Article._id <$> Mongo.docs (articles st) = ["ab"%string; "b"%string].
Proof. vm_compute. split; reflexivity. Qed.


Lemma prune_date_mono (v1 v2 off : Z) :
  v1 ≤ v2 →
  EntitiesDB.prune_date (Moment.mk v1 (Moment.fixed off))
  ≤ EntitiesDB.prune_date (Moment.mk v2 (Moment.fixed off)).
Proof.
  intros Hle. rewrite !prune_date_cutoff.
  unfold Moment.startOf_day, Moment.local, Moment.ms_per_day, Moment.fixed. simpl.
  set (o := off * 60000).
  pose proof (Z.div_le_mono (v1 + o) (v2 + o) 86400000 ltac:(lia) ltac:(lia)) as Hdiv.
  rewrite (Z.mod_eq (v1 + o) 86400000) by lia.
  rewrite (Z.mod_eq (v2 + o) 86400000) by lia.
  lia.
Qed.

Lemma pruneOlderThan30d_lookup (now : Moment.t) (st : store) (k : string) :
  (∀ a, articles (EntitiesDB.pruneOlderThan30d now st) !! k = Some a
        ↔ articles st !! k = Some a ∧ ¬ Article.date a < EntitiesDB.prune_date now)
  ∧ (∀ e, entities (EntitiesDB.pruneOlderThan30d now st) !! k = Some e
          ↔ entities st !! k = Some e ∧ ¬ Entity.date e < EntitiesDB.prune_date now).
Proof.
  unfold EntitiesDB.pruneOlderThan30d. simpl.
  split; intros x; by rewrite remove_lookup.
Qed.

(** X23. In a zone that keeps one offset, records dated within the last 30
    days are never removed and records dated more than 31 days back
    always are, at whatever time of the day the sweep runs. *)
Lemma pruneOlderThan30d_bounds (v off : Z) (st : store) (k : string) :
  let now := Moment.mk v (Moment.fixed off) in
  let st' := EntitiesDB.pruneOlderThan30d now st in
  (∀ a, articles st !! k = Some a →
     (Moment.valueOf now - 30 * Moment.ms_per_day ≤ Article.date a →
      articles st' !! k = Some a)
     ∧ (Article.date a ≤ Moment.valueOf now - 31 * Moment.ms_per_day →
        articles st' !! k = None))
  ∧ (∀ e, entities st !! k = Some e →
       (Moment.valueOf now - 30 * Moment.ms_per_day ≤ Entity.date e →
        entities st' !! k = Some e)
       ∧ (Entity.date e ≤ Moment.valueOf now - 31 * Moment.ms_per_day →
          entities st' !! k = None)).
Proof.
  intros now st'.
  pose proof (prune_date_cutoff v off) as Hcut.
  destruct (startOf_day_spec v off) as [_ Hsod]. cbv zeta in Hcut, Hsod.
  fold now in Hcut, Hsod.
  destruct (pruneOlderThan30d_lookup now st k) as [Ha He].
  unfold Moment.ms_per_day in *.
  split.
  - intros a Hk. split; intros Hd.
    + apply Ha. split; [done|]. lia.
    + unfold st', EntitiesDB.pruneOlderThan30d. simpl.
      apply (remove_lookup_None _ _ k a Hk). unfold Mongo.lt, JS.new_Date. lia.
  - intros e Hk. split; intros Hd.
    + apply He. split; [done|]. lia.
    + unfold st', EntitiesDB.pruneOlderThan30d. simpl.
      apply (remove_lookup_None _ _ k e Hk). unfold Mongo.lt, JS.new_Date. lia.
Qed.

(** X24. A later sweep subsumes an earlier one (in the same time zone, of
    one offset): run in either order, the two leave what the later one
    alone leaves.  In particular a sweep run twice is a sweep run once. *)
Lemma pruneOlderThan30d_subsumes (v1 v2 off : Z) (st : store) :
  let now1 := Moment.mk v1 (Moment.fixed off) in
  let now2 := Moment.mk v2 (Moment.fixed off) in
  Moment.valueOf now1 ≤ Moment.valueOf now2 →
  EntitiesDB.pruneOlderThan30d now2 (EntitiesDB.pruneOlderThan30d now1 st)
  = EntitiesDB.pruneOlderThan30d now2 st
  ∧ EntitiesDB.pruneOlderThan30d now1 (EntitiesDB.pruneOlderThan30d now2 st)
    = EntitiesDB.pruneOlderThan30d now2 st.
Proof.
  intros now1 now2 Hle. pose proof (prune_date_mono v1 v2 off Hle) as Hc.
  fold now1 now2 in Hc.
  split; apply store_eq; apply map_eq; intros k; apply option_eq; intros x.
  - rewrite !(proj1 (pruneOlderThan30d_lookup _ _ k)).
    split; [intros [[? ?] ?]; done|]. intros [? ?]. repeat split; [done|lia|done].
  - rewrite !(proj2 (pruneOlderThan30d_lookup _ _ k)).
    split; [intros [[? ?] ?]; done|]. intros [? ?]. repeat split; [done|lia|done].
  - rewrite !(proj1 (pruneOlderThan30d_lookup _ _ k)).
    split; [intros [[? ?] ?]; done|]. intros [? ?]. repeat split; [done|done|lia].
  - rewrite !(proj2 (pruneOlderThan30d_lookup _ _ k)).
    split; [intros [[? ?] ?]; done|]. intros [? ?]. repeat split; [done|done|lia].
Qed.

Lemma pruneOlderThan30d_subsumes_witness :
  let morning := Moment.mk 1446552000000 (Moment.fixed (-300)) in
  let evening := Moment.mk 1446580800000 (Moment.fixed (-300)) in
  let st := Store
    (list_to_map [("a"%string, Article.mk "a" "old" 1443000000000 "u");
                  ("b"%string, Article.mk "b" "new" 1446000000000 "v")])
    ∅ in
  EntitiesDB.pruneOlderThan30d evening (EntitiesDB.pruneOlderThan30d morning st)
  = EntitiesDB.pruneOlderThan30d evening st
  ∧ EntitiesDB.pruneOlderThan30d morning (EntitiesDB.pruneOlderThan30d evening st)
    = EntitiesDB.pruneOlderThan30d evening st.
Proof.
  intros morning evening st.
  apply (pruneOlderThan30d_subsumes 1446552000000 1446580800000 (-300) st).
  simpl. lia.
Defined.

(** X25. The two sweeps commute, and the sweep of one-character texts run
    twice is the sweep run once. *)
Lemma prunes_commute (now : Moment.t) (st : store) :
  EntitiesDB.pruneCharEntities (EntitiesDB.pruneOlderThan30d now st)
  = EntitiesDB.pruneOlderThan30d now (EntitiesDB.pruneCharEntities st)
  ∧ EntitiesDB.pruneCharEntities (EntitiesDB.pruneCharEntities st)
    = EntitiesDB.pruneCharEntities st.
Proof.
  split; apply store_eq; try done; apply map_eq; intros k; apply option_eq; intros x.
  - unfold EntitiesDB.pruneCharEntities, EntitiesDB.pruneOlderThan30d. simpl.
    rewrite !remove_lookup. tauto.
  - unfold EntitiesDB.pruneCharEntities. simpl. rewrite !remove_lookup. tauto.
Qed.

Lemma init_step_mongolab (svc : VCAP.service) (acc : option string) :
  (Spec.mongolab svc →
   EntitiesDB.init_step acc svc = Some (VCAP.uri (VCAP.credentials svc)))
  ∧ (¬ Spec.mongolab svc → EntitiesDB.init_step acc svc = acc).
Proof.
  unfold EntitiesDB.init_step, EntitiesDB.indexOf, Spec.mongolab.
  destruct (String.index 0 "mongolab" (VCAP.name svc)) as [n|] eqn:Hi.
  - rewrite bool_decide_true by lia. split; [done|].
    apply String.index_correct1 in Hi. simpl in Hi.
    intros Hno. destruct Hno. by exists n.
  - rewrite bool_decide_false by lia. split; [|done].
    intros [m Hm].
    by destruct (String.index_correct3 0 m "mongolab" (VCAP.name svc) Hi
                   ltac:(done) ltac:(lia)).
Qed.

Lemma init_fold_no_mongolab (l : list VCAP.service) (acc : option string) :
  Forall (λ svc, ¬ Spec.mongolab svc) l →
  foldl EntitiesDB.init_step acc l = acc.
Proof.
  revert acc. induction l as [|svc l IH]; intros acc Hl; simpl; [done|].
  apply Forall_cons in Hl as [Hsvc Hl].
  rewrite (proj2 (init_step_mongolab svc acc) Hsvc). by apply IH.
Qed.

(** X26. [init] connects to the uri of the last user-provided service whose
    name contains "mongolab", whatever comes before it; it calls
    [connect] with [undefined] when there is no such service, and throws
    when there is no list of services at all. *)
Lemma init_connects_to_last_mongolab :
  (∀ before svc after,
     Spec.mongolab svc →
     Forall (λ s, ¬ Spec.mongolab s) after →
     EntitiesDB.init (Some (before ++ svc :: after))
     = JS.Return (Some (VCAP.uri (VCAP.credentials svc))))
  ∧ (∀ services,
       Forall (λ s, ¬ Spec.mongolab s) services →
       EntitiesDB.init (Some services) = JS.Return None)
  ∧ EntitiesDB.init None = JS.Throw JS.TypeError.
Proof.
  split; [|split; [|done]].
  - intros before svc after Hsvc Hafter. unfold EntitiesDB.init. f_equal.
    rewrite foldl_app. simpl.
    rewrite (proj1 (init_step_mongolab svc _) Hsvc).
    by apply init_fold_no_mongolab.
  - intros services Hno. unfold EntitiesDB.init. f_equal.
    by apply init_fold_no_mongolab.
Qed.

(** A MongoLab service between two others. *)
Example init_mongolab :
  EntitiesDB.init (Some
    [{| VCAP.name := "alchemy-key"; VCAP.credentials := {| VCAP.uri := "https://a" |} |};
     {| VCAP.name := "my-mongolab-db"; VCAP.credentials := {| VCAP.uri := "mongodb://m" |} |};
     {| VCAP.name := "other"; VCAP.credentials := {| VCAP.uri := "https://o" |} |}])
  = JS.Return (Some "mongodb://m"%string).
Proof. reflexivity. Qed.

(** X10. When all the mentions that match carry the same spelling, nothing is
    lost to the choice of the first group: the article id of every
    matching mention is among the ids. *)
Lemma getArticleIdsForEntity_single_spelling
    (entity : string) (re : RegExp.t) (start end_ : option Z) (st : store)
    (ids : list string) :
  RegExp.compile (EntitiesDB.entity_pattern entity) = Some re →
  EntitiesDB.getArticleIdsForEntity entity start end_ st = Some (JS.Resolved ids) →
  let hit d :=
    Spec.stored st d ∧ RegExp.test re (Entity.text d) = true
    ∧ Spec.window_start start ≤ Entity.date d < Spec.window_end end_ in
  (∀ d1 d2, hit d1 → hit d2 → Entity.text d1 = Entity.text d2) →
  ∀ i, i ∈ ids ↔ ∃ d, hit d ∧ Entity.article_id d = i.
Proof.
  intros Hre (re' & t & Hre' & Hne & ->)%getArticleIdsForEntity_Resolved hit Hsame i.
  rewrite Hre in Hre'. injection Hre' as <-.
  rewrite list_elem_of_fmap. split.
  - intros (d & -> & [_ Hd]%list_elem_of_filter). exists d. split; [|done].
    by apply ids_matched_elem in Hd.
  - intros (d & Hd & <-). exists d. split; [done|].
    destruct (filter _ _) as [|d0 ds] eqn:Hf; [done|].
    assert (d0 ∈ filter (λ d, Entity.text d = t)
              (EntitiesDB.ids_matched re (Spec.window_start start)
                 (Spec.window_end end_) (entities st))) as Hd0
      by (rewrite Hf; apply list_elem_of_here).
    rewrite <- Hf. apply list_elem_of_filter in Hd0 as [Ht Hd0].
    apply list_elem_of_filter. split.
    + rewrite <- Ht. apply Hsame; [done|]. by apply ids_matched_elem in Hd0.
    + by apply ids_matched_elem.
Qed.

Lemma getArticleIdsForEntity_single_spelling_witness :
  let st := Store ∅ (list_to_map
    [("ibma1"%string, Entity.mk "ibma1" "a1" 1000 "ibm" 3 0%float);
     ("ibma2"%string, Entity.mk "ibma2" "a2" 2000 "ibm" 5 0%float)]) in
  ∃ ids, EntitiesDB.getArticleIdsForEntity "IBM" None None st = Some (JS.Resolved ids)
         ∧ "a1"%string ∈ ids ∧ "a2"%string ∈ ids.
Proof.
  intros st.
  assert (∃ ids, EntitiesDB.getArticleIdsForEntity "IBM" None None st
                 = Some (JS.Resolved ids)) as [ids Hres]
    by (eexists; vm_compute; reflexivity).
  exists ids. split; [exact Hres|].
  pose proof (getArticleIdsForEntity_single_spelling "IBM"
                [[RegExp.Bol; RegExp.Lit "I"; RegExp.Lit "B"; RegExp.Lit "M"; RegExp.Eol]]
                None None st ids eq_refl Hres) as Hall.
  assert (Hst : ∀ d, Spec.stored st d → Entity.text d = "ibm"%string).
  { intros d [k Hk]. apply elem_of_list_to_map_2, list_elem_of_In in Hk.
    by destruct Hk as [[= <- <-]|[[= <- <-]|[]]]. }
  assert (Hsame : ∀ d1 d2,
            (Spec.stored st d1 ∧ RegExp.test
               [[RegExp.Bol; RegExp.Lit "I"; RegExp.Lit "B"; RegExp.Lit "M"; RegExp.Eol]]
               (Entity.text d1) = true
             ∧ Spec.window_start None ≤ Entity.date d1 < Spec.window_end None) →
            (Spec.stored st d2 ∧ RegExp.test
               [[RegExp.Bol; RegExp.Lit "I"; RegExp.Lit "B"; RegExp.Lit "M"; RegExp.Eol]]
               (Entity.text d2) = true
             ∧ Spec.window_start None ≤ Entity.date d2 < Spec.window_end None) →
            Entity.text d1 = Entity.text d2).
  { intros d1 d2 [H1 _] [H2 _]. by rewrite (Hst d1 H1), (Hst d2 H2). }
  split; apply (Hall Hsame).
  - exists (Entity.mk "ibma1" "a1" 1000 "ibm" 3 0%float).
    split; [|reflexivity]. split; [|split; [reflexivity|simpl; lia]].
    exists "ibma1"%string. vm_compute. reflexivity.
  - exists (Entity.mk "ibma2" "a2" 2000 "ibm" 5 0%float).
    split; [|reflexivity]. split; [|split; [reflexivity|simpl; lia]].
    exists "ibma2"%string. vm_compute. reflexivity.
Defined.

Lemma NoDup_all_equal {A} (x : A) (l : list A) :
  l ≠ [] → NoDup l → (∀ y, y ∈ l → y = x) → l = [x].
Proof.
  destruct l as [|a [|b l]]; [done| |].
  - intros _ _ Hall. f_equal. apply Hall, list_elem_of_here.
  - intros _ Hnd Hall.
    assert (a = x) as -> by (apply Hall, list_elem_of_here).
    assert (b = x) as -> by (apply Hall, list_elem_of_further, list_elem_of_here).
    apply NoDup_cons in Hnd as [Hnot _]. destruct Hnot. apply list_elem_of_here.
Qed.

(** X19. A round trip through the store.  After a document is uploaded into
    an empty store, looking up any of its valid entities by its text
    (free of pattern syntax, the document dated inside the default
    window) resolves with the id of the document alone, and the article
    query with the article adapted from the document alone. *)
Lemma upload_then_lookup (doc : Alchemy.doc) (a : Article.t) (es : list Entity.t)
    (m : Entity.t) :
  EntitiesDB._adaptFromAlchemyDoc doc = JS.Return (Some (a, es)) →
  m ∈ es →
  Spec.plain (Entity.text m) →
  0 ≤ Alchemy.timestamp doc * 1000 < 9999999999999 →
  let st := (EntitiesDB.uploadArticlesFromDocs [Some doc] (Store ∅ ∅)).1 in
  EntitiesDB.getArticleIdsForEntity (Entity.text m) None None st
  = Some (JS.Resolved [Alchemy.id doc])
  ∧ EntitiesDB.getArticlesForEntity (Entity.text m) None None st
    = Some (JS.Resolved [a]).
Proof.
  intros Ha Hm Hplain Hts st.
  assert (Hst : st = foldl EntitiesDB.upsert_entity
                       (EntitiesDB.upsert_article a (Store ∅ ∅)) es).
  { unfold st. simpl. by rewrite (upload_doc_adapted doc _ (a, es) Ha). }
  pose proof Ha as (u & _ & Hart & Hes & _)%adapt_Some.
  (* every stored mention comes from the document *)
  assert (Hfrom : ∀ d, Spec.stored st d →
            Entity.article_id d = Alchemy.id doc
            ∧ Entity.date d = Alchemy.timestamp doc * 1000).
  { intros d [k Hk]. rewrite Hst, foldl_upsert_entity_lookup in Hk.
    destruct (last _) as [d'|] eqn:Hl; [|simpl in Hk; by rewrite lookup_empty in Hk].
    injection Hk as ->.
    apply last_Some_elem_of, list_elem_of_filter in Hl as [_ Hd].
    rewrite Hes in Hd. by apply adapt_mentions_elem in Hd as (e & _ & -> & _). }
  assert (Hwk : Spec.well_keyed st).
  { unfold st. apply upload_well_keyed.
    split; intros k x Hk; simpl in Hk; by rewrite lookup_empty in Hk. }
  (* the lookup resolves *)
  pose proof (compile_entity_pattern _ Hplain) as Hre.
  destruct (upload_doc_mention_stored doc a es m (Store ∅ ∅) Ha Hm)
    as (m' & Hm' & Htext & _).
  rewrite <- Hst in Hm'.
  assert (Hstored : Spec.stored st m') by by exists (Entity._id m).
  destruct (ids_resolve_of_hit (Entity.text m) _ None None st m' Hre)
    as [ids Hids].
  { split; [done|]. split.
    - apply (test_plain_entity _ _ _ Hplain Hre). unfold Text.eq_ignore_case.
      by rewrite Htext.
    - destruct (Hfrom m' Hstored) as [_ ->]. exact Hts. }
  (* with the id of the document alone *)
  assert (Hone : ids = [Alchemy.id doc]).
  { apply NoDup_all_equal.
    - by apply getArticleIdsForEntity_Resolved in Hids as (_ & _ & _ & ? & _).
    - by apply (ids_NoDup_of_well_keyed _ _ _ _ _ Hwk Hids).
    - intros i Hi.
      apply getArticleIdsForEntity_Resolved in Hids as (re' & t & _ & _ & ->).
      apply list_elem_of_fmap in Hi as (d & -> & [_ Hd]%list_elem_of_filter).
      apply ids_matched_elem in Hd as [Hd _]. by apply Hfrom. }
  subst ids. split; [done|].
  unfold EntitiesDB.getArticlesForEntity. rewrite Hids. simpl. do 2 f_equal.
  assert (Harts : articles st = {[ Alchemy.id doc := a ]}).
  { rewrite Hst, foldl_upsert_entity_articles. simpl. unfold Mongo.findByIdAndUpdate.
    rewrite Hart. simpl. by rewrite insert_empty. }
  unfold Mongo.docs. rewrite Harts, map_to_list_singleton. simpl.
  rewrite filter_cons_True; [done|].
  rewrite Hart. simpl. apply list_elem_of_here.
Qed.

Lemma upload_then_lookup_witness :
  let doc :=
    {| Alchemy.id := "doc1"; Alchemy.timestamp := 1446552000;
       Alchemy.source := Some {| Alchemy.enriched := Some
         {| Alchemy.enriched_title := None;
            Alchemy.enriched_url := Alchemy.UrlObject
              {| Alchemy.title := "Title"; Alchemy.url := "http://example.org/a";
                 Alchemy.entities :=
                   [{| Alchemy.text := "x"; Alchemy.count := 1;
                       Alchemy.sentiment := {| Alchemy.score := 0%float |} |};
                    {| Alchemy.text := "IBM"; Alchemy.count := 3;
                       Alchemy.sentiment := {| Alchemy.score := 0.5%float |} |}] |};
            Alchemy.enriched_entities := None |} |} |} in
  let st := (EntitiesDB.uploadArticlesFromDocs [Some doc] (Store ∅ ∅)).1 in
  EntitiesDB.getArticleIdsForEntity "IBM" None None st
  = Some (JS.Resolved ["doc1"%string])
  ∧ EntitiesDB.getArticlesForEntity "IBM" None None st
    = Some (JS.Resolved [Article.mk "doc1" "Title" 1446552000000 "http://example.org/a"]).
Proof.
  intros doc.
  refine (upload_then_lookup doc
            (Article.mk "doc1" "Title" 1446552000000 "http://example.org/a")
            [Entity.mk "IBMdoc1" "doc1" 1446552000000 "IBM" 3 0.5%float]
            (Entity.mk "IBMdoc1" "doc1" 1446552000000 "IBM" 3 0.5%float)
            eq_refl (list_elem_of_here _ _) _ _).
  - repeat constructor.
  - simpl. lia.
Defined.

Lemma upload_app (docs1 docs2 : list (option Alchemy.doc)) (st : store) :
  EntitiesDB.uploadArticlesFromDocs (docs1 ++ docs2) st
  = match (EntitiesDB.uploadArticlesFromDocs docs1 st).2 with
    | JS.Return _ =>
        EntitiesDB.uploadArticlesFromDocs docs2
          (EntitiesDB.uploadArticlesFromDocs docs1 st).1
    | JS.Throw _ => EntitiesDB.uploadArticlesFromDocs docs1 st
    end.
Proof.
  revert st. induction docs1 as [|[doc|] docs1 IH]; intros st; simpl; [done| |apply IH].
  destruct (EntitiesDB.upload_doc doc st) as [st1|err]; [apply IH|done].
Qed.

(** X17. Batches compose: a batch that completes followed by another equals
    their concatenation.  A document on which the adapter throws cuts
    the batch: what comes before it is uploaded, what comes after is
    not, and the exception leaves the call.  [null] entries are passed
    over. *)
Lemma uploadArticlesFromDocs_control
    (docs1 docs2 : list (option Alchemy.doc)) (st : store) :
  ((EntitiesDB.uploadArticlesFromDocs docs1 st).2 = JS.Return () →
   EntitiesDB.uploadArticlesFromDocs (docs1 ++ docs2) st
   = EntitiesDB.uploadArticlesFromDocs docs2
       (EntitiesDB.uploadArticlesFromDocs docs1 st).1)
  ∧ (∀ bad e,
       (EntitiesDB.uploadArticlesFromDocs docs1 st).2 = JS.Return () →
       EntitiesDB._adaptFromAlchemyDoc bad = JS.Throw e →
       EntitiesDB.uploadArticlesFromDocs (docs1 ++ Some bad :: docs2) st
       = ((EntitiesDB.uploadArticlesFromDocs docs1 st).1, JS.Throw e))
  ∧ EntitiesDB.uploadArticlesFromDocs (docs1 ++ None :: docs2) st
    = EntitiesDB.uploadArticlesFromDocs (docs1 ++ docs2) st.
Proof.
  split; [|split].
  - intros Hret. by rewrite upload_app, Hret.
  - intros bad e Hret Hbad. rewrite upload_app, Hret. simpl.
    unfold EntitiesDB.upload_doc. by rewrite Hbad.
  - rewrite !upload_app. by destruct (EntitiesDB.uploadArticlesFromDocs docs1 st).2.
Qed.

(** A document holding a string under [enriched.url] between two good
    ones: the first is uploaded, the last is not. *)
Example uploadArticlesFromDocs_cut :
  let good i :=
    {| Alchemy.id := i; Alchemy.timestamp := 1446552000;
       Alchemy.source := Some {| Alchemy.enriched := Some
         {| Alchemy.enriched_title := None;
            Alchemy.enriched_url := Alchemy.UrlObject
              {| Alchemy.title := "Title"; Alchemy.url := "http://example.org/a";
                 Alchemy.entities :=
                   [{| Alchemy.text := "IBM"; Alchemy.count := 3;
                       Alchemy.sentiment := {| Alchemy.score := 0.5%float |} |}] |};
            Alchemy.enriched_entities := None |} |} |} in
  let bad :=
    {| Alchemy.id := "d2"; Alchemy.timestamp := 1446552000;
       Alchemy.source := Some {| Alchemy.enriched := Some
         {| Alchemy.enriched_title := Some "Title"%string;
            Alchemy.enriched_url := Alchemy.UrlString "http://example.org/b";
            Alchemy.enriched_entities := Some [] |} |} |} in
  let r := EntitiesDB.uploadArticlesFromDocs
             [Some (good "d1"); Some bad; Some (good "d3")] (Store ∅ ∅) in
  r.2 = JS.Throw JS.TypeError
  ∧ Article._id <$> Mongo.docs (articles r.1) = ["d1"%string].
Proof. vm_compute. split; reflexivity. Qed.

Lemma upper_upper_ascii (c : ascii) :
  Text.upper_ascii (Text.upper_ascii c) = Text.upper_ascii c.
Proof. ascii_cases c; reflexivity. Qed.

Lemma is_line_terminator_upper (c : ascii) :
  RegExp.is_line_terminator (Text.upper_ascii c) = RegExp.is_line_terminator c.
Proof. ascii_cases c; reflexivity. Qed.

Lemma match_here_toUpper (alt : RegExp.alternative) (b : bool) (s : string) :
  RegExp.match_here alt b (Text.toUpper s) = RegExp.match_here alt b s.
Proof.
  revert b s. induction alt as [|[| | |c] alt IH]; intros b s; simpl; [done| | | |].
  - by rewrite IH.
  - destruct s; simpl; [apply (IH b ""%string)|done].
  - destruct s as [|d s]; simpl; [done|]. by rewrite is_line_terminator_upper, IH.
  - destruct s as [|d s]; simpl; [done|].
    unfold RegExp.char_match. by rewrite upper_upper_ascii, IH.
Qed.

Lemma existsb_match_toUpper (re : RegExp.t) (b : bool) (s : string) :
  existsb (λ alt, RegExp.match_here alt b (Text.toUpper s)) re
  = existsb (λ alt, RegExp.match_here alt b s) re.
Proof. induction re as [|alt re IH]; simpl; [done|]. by rewrite match_here_toUpper, IH. Qed.

Lemma search_toUpper (re : RegExp.t) (b : bool) (s : string) :
  RegExp.search re b (Text.toUpper s) = RegExp.search re b s.
Proof.
  revert b. induction s as [|c s IH]; intros b.
  - reflexivity.
  - change (RegExp.search re b (Text.toUpper (String c s)))
      with (existsb (λ alt, RegExp.match_here alt b (Text.toUpper (String c s))) re
            || RegExp.search re false (Text.toUpper s)).
    by rewrite existsb_match_toUpper, IH.
Qed.

(** X11. Whatever the entity text, the match of the lookup does not depend on
    the case of the stored text: two texts equal up to case are both
    matched or both not. *)
Lemma test_ignores_case (re : RegExp.t) (s t : string) :
  Text.eq_ignore_case s t → RegExp.test re s = RegExp.test re t.
Proof.
  unfold Text.eq_ignore_case, RegExp.test. intros H.
  by rewrite <- (search_toUpper re true s), H, search_toUpper.
Qed.

Lemma test_ignores_case_witness :
  RegExp.test [[RegExp.Bol; RegExp.Lit "u"; RegExp.Any; RegExp.Lit "s"; RegExp.Eol]] "UPS"
  = RegExp.test [[RegExp.Bol; RegExp.Lit "u"; RegExp.Any; RegExp.Lit "s"; RegExp.Eol]] "ups".
Proof. apply test_ignores_case. reflexivity. Defined.
